(** * Cross-chain Merkle proofs (src/crosschain.cpp)

    A shallow embedding of the proof-composition engine: the backward scan
    [CalculateProofRoot], the forward scan [ScanNotarisationsFromHeight], the
    hub-side [GetCrossChainProof], the assetchain-side [GetAssetchainProof]
    and [GetNextBacknotarisation].

    Conventions.
    - [uint256] is an integer; the null hash [uint256()] is [0].
    - C++ [int] values (heights, indices, counters) are integers of [Z]; the
      source never relies on wrap-around of signed arithmetic (it would be
      undefined there), so none is written out.
    - A [throw std::runtime_error(msg)] is the outcome [Throw msg]; the
      dereference of a null [CBlockIndex*] (what [chainActive[h]] yields out
      of range, see the XXX note at the top of the source) is [Crash], and so
      is the [fprintf] on a null stream of lines 170-171.
    - Reference ("out") parameters are passed in and returned. *)

From Stdlib Require Import ZArith List String Bool Lia.
Import ListNotations.
Local Open Scope Z_scope.

(** ** Data model *)

Definition uint256 := Z.
Definition uint256_null : uint256 := 0.
Definition IsNull (h : uint256) : bool := h =? 0.

(** [NotarisationData]: the members this file reads. *)
Record NotarisationData := mkNotarisationData {
  symbol : string;
  ccId : Z;
  height : Z;
  MoM : uint256;
  MoMDepth : Z;
  txHash : uint256
}.

(** [typedef std::pair<uint256,NotarisationData> Notarisation]. *)
Definition Notarisation := (uint256 * NotarisationData)%type.
Definition NotarisationsInBlock := list Notarisation.

(** A default-constructed [Notarisation nota;]. *)
Definition Notarisation_default : Notarisation :=
  (uint256_null, mkNotarisationData "" 0 0 uint256_null 0 uint256_null).

Record CBlockIndex := mkCBlockIndex {
  nHeight : Z;
  phashBlock : uint256;
  hashMerkleRoot : uint256;
  nStatus : Z;
  nTx : Z
}.

(** A block read from disk: the hashes of its transactions, in order, and the
    Merkle root of its header. *)
Record CBlock := mkCBlock {
  vtx : list uint256;
  block_hashMerkleRoot : uint256
}.

Record MerkleBranch := mkMerkleBranch {
  nIndex : Z;
  branch : list uint256
}.

(** [typedef std::pair<uint256,MerkleBranch> TxProof]. *)
Definition TxProof := (uint256 * MerkleBranch)%type.

(** ** Outcomes of a call *)

Inductive outcome (A : Type) : Type :=
| Return (a : A)
| Throw (msg : string)
| Crash.
Arguments Return {A} a.
Arguments Throw {A} msg.
Arguments Crash {A}.

Definition bind {A B : Type} (m : outcome A) (k : A -> outcome B) : outcome B :=
  match m with
  | Return a => k a
  | Throw msg => Throw msg
  | Crash => Crash
  end.

Notation "x <- m ;; k" := (bind m (fun x => k))
  (at level 61, m at next level, right associativity).

(** [int NOTARISATION_SCAN_LIMIT_BLOCKS = 1440;] *)
Definition NOTARISATION_SCAN_LIMIT_BLOCKS : Z := 1440.

(** ** Merkle branches *)

Section Merkle.

(** The node hash of the Merkle trees: the digest of two concatenated
    32-byte values. Its code is outside this file; the development is
    parametric in it. *)
Variable Hash : uint256 -> uint256 -> uint256.

(** Modelled from the spec: [CBlock::CheckMerkleBranch] is declared outside
    src/. The spec gives [check_merkle_branch(leaf, branch, index) -> root]
    folding the siblings with the leaf according to the index's bitwise
    path: bit 0 of the index tells whether the running hash is the right
    child ([1]) or the left child ([0]) of the next node, and the index is
    shifted right after every sibling. *)
Fixpoint CheckMerkleBranch (hash : uint256) (vMerkleBranch : list uint256)
         (idx : Z) : uint256 :=
  match vMerkleBranch with
  | [] => hash
  | otherside :: rest =>
      let hash' := if Z.testbit idx 0 then Hash otherside hash
                   else Hash hash otherside in
      CheckMerkleBranch hash' rest (Z.shiftr idx 1)
  end.

(** Modelled from the spec: [SafeCheckMerkleBranch] is declared outside
    src/. The spec gives it the semantics of [check_merkle_branch] except
    that it returns null on malformed input; which inputs count as
    malformed is a parameter here. *)
Variable malformed : uint256 -> list uint256 -> Z -> bool.

Definition SafeCheckMerkleBranch (hash : uint256) (vMerkleBranch : list uint256)
           (idx : Z) : uint256 :=
  if malformed hash vMerkleBranch idx then uint256_null
  else CheckMerkleBranch hash vMerkleBranch idx.

(** Modelled from the spec: [MerkleBranch::Exec] is declared outside src/.
    The spec: Exec(leaf) folds the siblings with the leaf according to the
    index's bitwise path, returning the computed root. *)
Definition Exec (mb : MerkleBranch) (leaf : uint256) : uint256 :=
  CheckMerkleBranch leaf (branch mb) (nIndex mb).

(** Modelled from the spec: [MerkleBranch::operator<<] is declared outside
    src/. The spec: under composition, sibling arrays are concatenated and
    the leaf index is combined as
    [(upper_index << len(lower_siblings)) | lower_index]. *)
Definition MerkleBranch_append (lower upper : MerkleBranch) : MerkleBranch :=
  {| nIndex := Z.lor (Z.shiftl (nIndex upper) (Z.of_nat (List.length (branch lower))))
                     (nIndex lower);
     branch := branch lower ++ branch upper |}.

(** The composition written out in [GetAssetchainProof] (lines 341-343):
    [nIndex = (nIndex << txBranch.size()) + nTxIndex;
     branch.insert(branch.begin(), txBranch.begin(), txBranch.end());]
    with [lower] the transaction branch and [upper] the block branch. *)
Definition concatenate_branches (lower upper : MerkleBranch) : MerkleBranch :=
  {| nIndex := Z.shiftl (nIndex upper) (Z.of_nat (List.length (branch lower)))
               + nIndex lower;
     branch := branch lower ++ branch upper |}.

End Merkle.


(** ** The node: active chain, indexes and databases *)

(** What the functions read of the surrounding node. [chainActive] is the
    vector of the active chain, position = height; the others are the lookups
    of [mapBlockIndex], the notarisation database ([GetBlockNotarisations],
    [GetBackNotarisation]), the transaction index ([GetTxConfirmed],
    [GetTransaction], the latter giving the hash of the confirming block, null
    for a transaction still in the mempool) and the block files;
    [fopen_momom_on_kmd] tells whether [fopen("/home/cc/momom_on_kmd", "a+")]
    gives a stream on this node. *)
Record NodeState := mkNodeState {
  chainActive : list CBlockIndex;
  mapBlockIndex : uint256 -> option CBlockIndex;
  GetBlockNotarisations : uint256 -> option NotarisationsInBlock;
  GetBackNotarisation : uint256 -> option Notarisation;
  GetTxConfirmed : uint256 -> option CBlockIndex;
  GetTransaction : uint256 -> option uint256;
  ReadBlockFromDisk : CBlockIndex -> option CBlock;
  fHavePruned : bool;
  ASSETCHAINS_SYMBOL : string;
  fopen_momom_on_kmd : bool
}.

(** [chainActive.Height()]: the height of the tip, [-1] for an empty chain. *)
Definition chain_Height (st : NodeState) : Z :=
  Z.of_nat (List.length (chainActive st)) - 1.

(** [chainActive[h]]: null when [h] is negative or beyond the tip. *)
Definition chain_at (st : NodeState) (h : Z) : option CBlockIndex :=
  if h <? 0 then None else nth_error (chainActive st) (Z.to_nat h).

(** The search loops of lines 176-179 and 328-333: the first position of
    [x] in [l], counting from [i]. *)
Fixpoint index_from (x : uint256) (l : list uint256) (i : Z) : option Z :=
  match l with
  | [] => None
  | y :: rest => if y =? x then Some i else index_from x rest (i + 1)
  end.

Section CrossChain.

Variable Hash : uint256 -> uint256 -> uint256.
Variable malformed : uint256 -> list uint256 -> Z -> bool.

(** Declared outside src/ and taken as parameters: the authority registry,
    the Merkle tree builders of the block code and the status flag. *)
Variable GetSymbolAuthority : string -> Z.
Variable GetMerkleRoot : list uint256 -> uint256.
Variable BuildMerkleTree : list uint256 -> list uint256.
Variable GetMerkleBranch : Z -> Z -> list uint256 -> list uint256.
Variable CBlock_GetMerkleBranch : list uint256 -> Z -> list uint256.
Variable BLOCK_HAVE_DATA : Z.

Variable st : NodeState.

(** *** CalculateProofRoot (lines 31-94) *)

(** How the first loop over a block's notarisations (lines 63-74) is left:
    by falling out of it or through [break], or by [goto end]. *)
Inductive own_check : Type :=
| OwnNext (seenOwnNotarisations : Z) (destNotarisationTxid : uint256)
| OwnGotoEnd.

Fixpoint see_own_notarisation (sym : string) (notarisations : NotarisationsInBlock)
         (seenOwnNotarisations : Z) (destNotarisationTxid : uint256) : own_check :=
  match notarisations with
  | [] => OwnNext seenOwnNotarisations destNotarisationTxid
  | nota :: rest =>
      if String.eqb (symbol (snd nota)) sym then
        let seen := seenOwnNotarisations + 1 in
        if seen =? 1 then OwnNext seen (fst nota)
        else if seen =? 2 then OwnGotoEnd
        else OwnNext seen destNotarisationTxid
      else see_own_notarisation sym rest seenOwnNotarisations destNotarisationTxid
  end.

(** The second loop over the block's notarisations (lines 77-83). *)
Fixpoint push_back_moms (authority : Z) (targetCCid : Z)
         (notarisations : NotarisationsInBlock) (moms : list uint256) : list uint256 :=
  match notarisations with
  | [] => moms
  | nota :: rest =>
      let moms' :=
        if GetSymbolAuthority (symbol (snd nota)) =? authority then
          if ccId (snd nota) =? targetCCid then moms ++ [MoM (snd nota)] else moms
        else moms in
      push_back_moms authority targetCCid rest moms'
  end.

(** The body of the [for] loop for a block that has a notarisation record
    (lines 62-84): it ends in [goto end], or goes on to the next [i]. *)
Inductive block_exit : Type :=
| BlockNext (seenOwnNotarisations : Z) (moms : list uint256)
            (destNotarisationTxid : uint256)
| BlockGotoEnd.

Definition examine_block (sym : string) (targetCCid authority : Z)
           (notarisations : NotarisationsInBlock)
           (seenOwnNotarisations : Z) (moms : list uint256)
           (destNotarisationTxid : uint256) : block_exit :=
  match see_own_notarisation sym notarisations
          seenOwnNotarisations destNotarisationTxid with
  | OwnGotoEnd => BlockGotoEnd
  | OwnNext seen dest =>
      if seen =? 1
      then BlockNext seen (push_back_moms authority targetCCid notarisations moms) dest
      else BlockNext seen moms dest
  end.

(** How the [for] loop of lines 55-85 is left: through [goto end], or by
    running out ([i] reached the limit, or [break] at [i > kmdHeight]). *)
Inductive loop_exit : Type :=
| LoopEnd (moms : list uint256) (destNotarisationTxid : uint256)
| LoopOut (seenOwnNotarisations : Z) (moms : list uint256)
          (destNotarisationTxid : uint256).

(** [n] counts the iterations that remain: [NOTARISATION_SCAN_LIMIT_BLOCKS - i]. *)
Fixpoint CalculateProofRoot_loop (sym : string) (targetCCid kmdHeight authority : Z)
         (n : nat) (i : Z) (seenOwnNotarisations : Z) (moms : list uint256)
         (destNotarisationTxid : uint256) : outcome loop_exit :=
  match n with
  | O => Return (LoopOut seenOwnNotarisations moms destNotarisationTxid)
  | S n' =>
      if i >? kmdHeight then
        Return (LoopOut seenOwnNotarisations moms destNotarisationTxid)
      else
        match chain_at st (kmdHeight - i) with
        | None => Crash
        | Some pindex =>
            match GetBlockNotarisations st (phashBlock pindex) with
            | None =>
                CalculateProofRoot_loop sym targetCCid kmdHeight authority n' (i + 1)
                  seenOwnNotarisations moms destNotarisationTxid
            | Some notarisations =>
                match examine_block sym targetCCid authority notarisations
                        seenOwnNotarisations moms destNotarisationTxid with
                | BlockGotoEnd => Return (LoopEnd moms destNotarisationTxid)
                | BlockNext seen moms' dest =>
                    CalculateProofRoot_loop sym targetCCid kmdHeight authority n' (i + 1)
                      seen moms' dest
                end
            end
        end
  end.

(** The result is the returned root with the final contents of the two
    reference parameters [moms] and [destNotarisationTxid]. *)
Definition CalculateProofRoot (sym : string) (targetCCid : Z) (kmdHeight : Z)
           (moms : list uint256) (destNotarisationTxid : uint256)
  : outcome (uint256 * list uint256 * uint256) :=
  if targetCCid <? 2 then Return (uint256_null, moms, destNotarisationTxid)
  else if (kmdHeight <? 0) || (kmdHeight >? chain_Height st) then
    Return (uint256_null, moms, destNotarisationTxid)
  else
    let seenOwnNotarisations := 0 in
    let authority := GetSymbolAuthority sym in
    r <- CalculateProofRoot_loop sym targetCCid kmdHeight authority
           (Z.to_nat NOTARISATION_SCAN_LIMIT_BLOCKS) 0
           seenOwnNotarisations moms destNotarisationTxid ;;
    match r with
    | LoopEnd moms' dest => Return (GetMerkleRoot moms', moms', dest)
    | LoopOut _ _ _ => Return (uint256_null, [], uint256_null)
    end.

(** *** ScanNotarisationsFromHeight (lines 102-120) *)

(** [BOOST_FOREACH(found, notarisations) { if (f(found)) return h; }]: every
    element is assigned to the reference [found] before it is tested. *)
Fixpoint scan_block (f : Notarisation -> bool) (notarisations : NotarisationsInBlock)
         (found : Notarisation) : bool * Notarisation :=
  match notarisations with
  | [] => (false, found)
  | nota :: rest => if f nota then (true, nota) else scan_block f rest nota
  end.

(** [n] counts the iterations that remain: [limit - h]. *)
Fixpoint ScanNotarisations_loop (f : Notarisation -> bool) (n : nat) (h : Z)
         (found : Notarisation) : outcome (Z * Notarisation) :=
  match n with
  | O => Return (0, found)
  | S n' =>
      match chain_at st h with
      | None => Crash
      | Some pindex =>
          match GetBlockNotarisations st (phashBlock pindex) with
          | None => ScanNotarisations_loop f n' (h + 1) found
          | Some notarisations =>
              let (hit, found') := scan_block f notarisations found in
              if hit then Return (h, found')
              else ScanNotarisations_loop f n' (h + 1) found'
          end
      end
  end.

Definition scan_limit (nHeight : Z) : Z :=
  Z.min (nHeight + NOTARISATION_SCAN_LIMIT_BLOCKS) (chain_Height st).

Definition ScanNotarisationsFromHeight (nHeight : Z) (f : Notarisation -> bool)
           (found : Notarisation) : outcome (Z * Notarisation) :=
  let limit := scan_limit nHeight in
  ScanNotarisations_loop f (Z.to_nat (limit - nHeight)) nHeight found.

(** *** GetCrossChainProof (lines 124-205) *)

(** Lines 168-172 print the MoMoM and append it to the file
    /home/cc/momom_on_kmd; the line written has no part in the value returned
    and is not kept, but the result of [fopen] is not tested there: where the
    file cannot be opened, [fprintf] is handed a null stream and the call
    crashes. *)

(** The lambda [isTarget] of lines 154-156. *)
Definition GetCrossChainProof_isTarget (targetSymbol : string) (nota : Notarisation)
  : bool :=
  String.eqb (symbol (snd nota)) targetSymbol.

Definition GetCrossChainProof (txid : uint256) (targetSymbol : string)
           (targetCCid : Z) (assetChainProof : TxProof) : outcome TxProof :=
  let MoM_ := Exec Hash (snd assetChainProof) txid in
  match GetTxConfirmed st (fst assetChainProof) with
  | None => Throw "Notarisation not found"
  | Some blockIdx =>
      let kmdHeight := nHeight blockIdx in
      let isTarget := GetCrossChainProof_isTarget targetSymbol in
      r <- ScanNotarisationsFromHeight kmdHeight isTarget Notarisation_default ;;
      let kmdHeight := fst r in
      if kmdHeight =? 0 then
        Throw "Cannot find notarisation for target inclusive of source"
      else
        c <- CalculateProofRoot targetSymbol targetCCid kmdHeight [] uint256_null ;;
        let '(MoMoM, moms, targetChainNotarisationTxid) := c in
        if IsNull MoMoM then Throw "No MoMs found"
        else if negb (fopen_momom_on_kmd st) then Crash
        else
          match index_from MoM_ moms 0 with
          | None => Throw "Couldn't find MoM within MoMoM set"
          | Some nIndex_ =>
              let vBranch := CBlock_GetMerkleBranch moms nIndex_ in
              let newBranch :=
                MerkleBranch_append (snd assetChainProof)
                                    (mkMerkleBranch nIndex_ vBranch) in
              if negb (Exec Hash newBranch txid =? MoMoM) then
                Throw "Proof check failed"
              else Return (targetChainNotarisationTxid, newBranch)
          end
  end.

(** *** IsSameAssetChain, GetNextBacknotarisation (lines 232-259) *)

Definition IsSameAssetChain (nota : Notarisation) : bool :=
  String.eqb (symbol (snd nota)) (ASSETCHAINS_SYMBOL st).

(** The result is the returned flag with the final contents of [out]. *)
Definition GetNextBacknotarisation (kmdNotarisationTxid : uint256)
           (out : Notarisation) : outcome (bool * Notarisation) :=
  match GetBackNotarisation st kmdNotarisationTxid with
  | None => Return (false, out)
  | Some bn =>
      match GetTxConfirmed st (fst bn) with
      | None => Return (false, out)
      | Some block =>
          r <- ScanNotarisationsFromHeight (nHeight block + 1) IsSameAssetChain out ;;
          Return (negb (fst r =? 0), snd r)
      end
  end.

(** *** GetAssetchainProof (lines 267-353) *)

(** Lines 302-305: the leaves of the MoM tree, most recent block first. *)
Fixpoint MoM_leaves (notaHeight : Z) (n : nat) (i : Z) (leaves : list uint256)
  : outcome (list uint256) :=
  match n with
  | O => Return leaves
  | S n' =>
      match chain_at st (notaHeight - i) with
      | None => Crash
      | Some pindex => MoM_leaves notaHeight n' (i + 1) (leaves ++ [hashMerkleRoot pindex])
      end
  end.

(** The lambda [isTarget] of lines 288-291. *)
Definition GetAssetchainProof_isTarget (blockIndex : CBlockIndex) (nota : Notarisation)
  : bool :=
  if negb (IsSameAssetChain nota) then false
  else height (snd nota) >=? nHeight blockIndex.

(** Lines 274-297: the confirming block and the selected notarisation. *)
Definition select_notarisation (hash : uint256) : outcome (CBlockIndex * Notarisation) :=
  match GetTransaction st hash with
  | None => Throw "cannot find transaction"
  | Some blockHash =>
      if IsNull blockHash then Throw "tx still in mempool"
      else
        match mapBlockIndex st blockHash with
        | None => Crash
        | Some blockIndex =>
            let isTarget := GetAssetchainProof_isTarget blockIndex in
            r <- ScanNotarisationsFromHeight (nHeight blockIndex) isTarget
                   Notarisation_default ;;
            if fst r =? 0 then Throw "backnotarisation not yet confirmed"
            else Return (blockIndex, snd r)
        end
  end.

(** Lines 299-314: the branch from the block's Merkle root to the MoM. *)
Definition block_to_MoM (blockIndex : CBlockIndex) (nota : Notarisation) (nIndex_ : Z)
  : outcome (list uint256) :=
  leaves <- MoM_leaves (height (snd nota)) (Z.to_nat (MoMDepth (snd nota))) 0 [] ;;
  let tree := BuildMerkleTree leaves in
  let branch_ := GetMerkleBranch nIndex_ (Z.of_nat (List.length leaves)) tree in
  let ourResult :=
    SafeCheckMerkleBranch Hash malformed (hashMerkleRoot blockIndex) branch_ nIndex_ in
  if negb (MoM (snd nota) =? ourResult) then Throw "Failed merkle block->MoM"
  else Return branch_.

Definition GetAssetchainProof (hash : uint256) : outcome TxProof :=
  sel <- select_notarisation hash ;;
  let '(blockIndex, nota) := sel in
  (* index of block in MoM leaves *)
  let nIndex_ := height (snd nota) - nHeight blockIndex in
  branch_ <- block_to_MoM blockIndex nota nIndex_ ;;
  (* Now get the tx merkle branch *)
  if fHavePruned st && (Z.land (nStatus blockIndex) BLOCK_HAVE_DATA =? 0)
     && (nTx blockIndex >? 0) then
    Throw "Block not available (pruned data)"
  else
    match ReadBlockFromDisk st blockIndex with
    | None => Throw "Can't read block from disk"
    | Some block =>
        match index_from hash (vtx block) 0 with
        | None => Throw "Error locating tx in block"
        | Some nTxIndex =>
            let txBranch := CBlock_GetMerkleBranch (vtx block) nTxIndex in
            if negb (block_hashMerkleRoot block =?
                     CheckMerkleBranch Hash hash txBranch nTxIndex) then
              Throw "Failed merkle tx->block"
            else
              let composed := concatenate_branches (mkMerkleBranch nTxIndex txBranch)
                                (mkMerkleBranch nIndex_ branch_) in
              if negb (MoM (snd nota) =?
                       CheckMerkleBranch Hash hash (branch composed) (nIndex composed)) then
                Throw "Failed validating MoM"
              else Return (txHash (snd nota), composed)
        end
    end.

End CrossChain.

(** ** Vocabulary of the statements *)

Section Vocabulary.

Variable GetSymbolAuthority : string -> Z.
Variable st : NodeState.

(** What a scan reads at height [h]: nothing when [chainActive[h]] is null,
    else the answer of the notarisation database for that block. *)
Definition notarisations_at (h : Z) : option (option NotarisationsInBlock) :=
  option_map (fun pindex => GetBlockNotarisations st (phashBlock pindex))
             (chain_at st h).

(** [strcmp(nota.second.symbol, symbol) == 0]. *)
Definition is_own (sym : string) (nota : Notarisation) : bool :=
  String.eqb (symbol (snd nota)) sym.

Definition has_own (sym : string) (notas : NotarisationsInBlock) : bool :=
  existsb (is_own sym) notas.

Definition first_own (sym : string) (notas : NotarisationsInBlock)
  : option Notarisation :=
  find (is_own sym) notas.

Definition own_count (sym : string) (notas : NotarisationsInBlock) : nat :=
  List.length (filter (is_own sym) notas).

(** Same authority as the target symbol, and the target ccId. *)
Definition eligible (sym : string) (targetCCid : Z) (nota : Notarisation) : bool :=
  (GetSymbolAuthority (symbol (snd nota)) =? GetSymbolAuthority sym)
  && (ccId (snd nota) =? targetCCid).

Definition eligible_moms (sym : string) (targetCCid : Z)
           (notas : NotarisationsInBlock) : list uint256 :=
  map (fun nota => MoM (snd nota)) (filter (eligible sym targetCCid) notas).

(** The heights the backward scan visits, in the order of the visit:
    [kmdHeight], [kmdHeight - 1], ... over at most
    [NOTARISATION_SCAN_LIMIT_BLOCKS] blocks and not below the genesis. *)
Definition scanned_heights (kmdHeight : Z) : list Z :=
  map (fun i => kmdHeight - Z.of_nat i)
      (seq 0 (Z.to_nat (Z.min NOTARISATION_SCAN_LIMIT_BLOCKS (kmdHeight + 1)))).

(** The notarisation records of the blocks at the given heights, blocks
    without a record skipped. *)
Definition records_at (heights : list Z) : list NotarisationsInBlock :=
  flat_map (fun h => match notarisations_at h with
                     | Some (Some notas) => [notas]
                     | _ => []
                     end) heights.

Definition scan_window (kmdHeight : Z) : list NotarisationsInBlock :=
  records_at (scanned_heights kmdHeight).

(** The loop body run over a list of records. *)
Fixpoint run_blocks (sym : string) (targetCCid authority : Z)
         (blocks : list NotarisationsInBlock)
         (seen : Z) (moms : list uint256) (dest : uint256) : loop_exit :=
  match blocks with
  | [] => LoopOut seen moms dest
  | notas :: rest =>
      match examine_block GetSymbolAuthority sym targetCCid authority notas
              seen moms dest with
      | BlockGotoEnd => LoopEnd moms dest
      | BlockNext seen' moms' dest' =>
          run_blocks sym targetCCid authority rest seen' moms' dest'
      end
  end.

(** The contents of [moms] when the loop is left. *)
Definition exit_moms (e : loop_exit) : list uint256 :=
  match e with
  | LoopEnd moms _ => moms
  | LoopOut _ moms _ => moms
  end.

(** No block of the list holds a notarisation of the symbol. *)
Definition quiet (sym : string) (blocks : list NotarisationsInBlock) : Prop :=
  Forall (fun notas => has_own sym notas = false) blocks.

(** The MoMs the loop body collects from the blocks of a list. *)
Definition collected_moms (sym : string) (targetCCid : Z)
           (blocks : list NotarisationsInBlock) : list uint256 :=
  List.concat (map (eligible_moms sym targetCCid) blocks).

End Vocabulary.

(** ** A concrete federation to run the functions on *)

Module Scenario.

(** A small stand-in for the node hash; any function will do for running the
    code, the theorems below hold for every [Hash]. *)
Definition toy_hash (a b : uint256) : uint256 := (a * 1000003 + b * 7 + 11) mod 2 ^ 61.

(** Modelled from the spec: the tree builders ([GetMerkleRoot],
    [BuildMerkleTree], [GetMerkleBranch], [CBlock::GetMerkleBranch]) are
    declared outside src/. The spec: binary Merkle trees with duplication of
    last-odd siblings (Bitcoin convention); [build_merkle_tree(leaves)] gives
    the tree, here its levels one after the other from the leaves to the
    root, and [merkle_branch(index, leaf_count, tree)] the siblings on the
    path of leaf [index]. *)
Fixpoint merkle_pairs (level : list uint256) : list uint256 :=
  match level with
  | [] => []
  | [a] => [toy_hash a a]
  | a :: b :: rest => toy_hash a b :: merkle_pairs rest
  end.

Fixpoint merkle_levels (fuel : nat) (level : list uint256) : list uint256 :=
  match fuel with
  | O => level
  | S fuel' =>
      match level with
      | [] | [_] => level
      | _ => level ++ merkle_levels fuel' (merkle_pairs level)
      end
  end.

Definition BuildMerkleTree (leaves : list uint256) : list uint256 :=
  merkle_levels (List.length leaves) leaves.

Definition GetMerkleRoot (leaves : list uint256) : uint256 :=
  last (BuildMerkleTree leaves) uint256_null.

Fixpoint merkle_branch_loop (fuel : nat) (idx nSize j : Z) (tree : list uint256)
  : list uint256 :=
  match fuel with
  | O => []
  | S fuel' =>
      if nSize >? 1 then
        nth (Z.to_nat (j + Z.min (Z.lxor idx 1) (nSize - 1))) tree uint256_null
          :: merkle_branch_loop fuel' (Z.shiftr idx 1) ((nSize + 1) / 2) (j + nSize) tree
      else []
  end.

Definition GetMerkleBranch (idx nLeaves : Z) (tree : list uint256) : list uint256 :=
  merkle_branch_loop (Z.to_nat nLeaves) idx nLeaves 0 tree.

Definition CBlock_GetMerkleBranch (hashes : list uint256) (idx : Z) : list uint256 :=
  GetMerkleBranch idx (Z.of_nat (List.length hashes)) (BuildMerkleTree hashes).

(** No input is malformed; one authority for every symbol. *)
Definition never_malformed (_ : uint256) (_ : list uint256) (_ : Z) : bool := false.
Definition one_authority (_ : string) : Z := 0.
Definition HAVE_DATA : Z := 8.

Definition lookup {A : Type} (table : list (uint256 * A)) (k : uint256) : option A :=
  option_map snd (find (fun e => fst e =? k) table).

(** *** Assetchain A: seven blocks; the transaction [170] is the second of
    three in block 1; the notarisation confirmed in block 5 pins height 4
    with a MoM over the four blocks 4, 3, 2, 1. *)

Definition block1_vtx : list uint256 := [160; 170; 171].

Definition A_merkle_root (h : Z) : uint256 :=
  if h =? 1 then GetMerkleRoot block1_vtx else 500 + h.

Definition A_index (h : Z) : CBlockIndex :=
  mkCBlockIndex h (1000 + h) (A_merkle_root h) HAVE_DATA 1.

Definition A_chain : list CBlockIndex := map A_index [0; 1; 2; 3; 4; 5; 6].

Definition A_MoM : uint256 := GetMerkleRoot (map A_merkle_root [4; 3; 2; 1]).

(** The notarisation of A, as the hub records it (transaction [9002]) and as
    A receives it back. *)
Definition nA0 : Notarisation :=
  (9002, mkNotarisationData "A" 3 4 A_MoM 4 9002).
Definition bnA0 : Notarisation :=
  (7005, mkNotarisationData "A" 3 4 A_MoM 4 9002).

Definition assetchain : NodeState :=
  {| chainActive := A_chain;
     mapBlockIndex := lookup (map (fun b => (phashBlock b, b)) A_chain);
     GetBlockNotarisations := lookup [(1005, [bnA0])];
     GetBackNotarisation := lookup [(9002, bnA0)];
     GetTxConfirmed := lookup [(7005, A_index 5)];
     GetTransaction := lookup [(170, 1001); (999, uint256_null)];
     ReadBlockFromDisk := fun b =>
       if nHeight b =? 1 then Some (mkCBlock block1_vtx (A_merkle_root 1)) else None;
     fHavePruned := false;
     ASSETCHAINS_SYMBOL := "A";
     fopen_momom_on_kmd := true |}.

(** *** The hub: six blocks; B is notarised in blocks 1 and 3, A in block 2. *)

Definition nB0 : Notarisation := (9001, mkNotarisationData "B" 3 10 71 4 9001).
Definition nB1 : Notarisation := (9003, mkNotarisationData "B" 3 20 73 4 9003).

Definition hub_index (h : Z) : CBlockIndex :=
  mkCBlockIndex h (100 + h) (600 + h) HAVE_DATA 1.

Definition hub_chain : list CBlockIndex := map hub_index [0; 1; 2; 3; 4; 5].

Definition hub_with (db : list (uint256 * NotarisationsInBlock)) : NodeState :=
  {| chainActive := hub_chain;
     mapBlockIndex := lookup (map (fun b => (phashBlock b, b)) hub_chain);
     GetBlockNotarisations := lookup db;
     GetBackNotarisation := fun _ => None;
     GetTxConfirmed := lookup [(9001, hub_index 1); (9002, hub_index 2);
                               (9003, hub_index 3)];
     GetTransaction := fun _ => None;
     ReadBlockFromDisk := fun _ => None;
     fHavePruned := false;
     ASSETCHAINS_SYMBOL := "KMD";
     fopen_momom_on_kmd := true |}.

Definition hub : NodeState :=
  hub_with [(101, [nB0]); (102, [nA0]); (103, [nB1]); (104, [])].

(** A hub on which block 3 holds two notarisations of B and no other block
    holds any. *)
Definition nB2 : Notarisation := (9004, mkNotarisationData "B" 3 21 74 4 9004).
Definition hub_twice : NodeState := hub_with [(102, [nA0]); (103, [nB1; nB2])].

(** A hub on which B is notarised in the tip block only, and one on which it
    is notarised in the genesis block only. *)
Definition hub_tip_only : NodeState := hub_with [(102, [nA0]); (105, [nB1])].
Definition hub_genesis_only : NodeState := hub_with [(100, [nB0]); (102, [nA0])].

(** The proof that A gives for the transaction [170], the proof that the hub
    makes of it for B, and the predicate of the hub's forward scan for B. *)
Definition proofA : TxProof :=
  (9002, mkMerkleBranch 13 [160; 171001721; 502; 504005044]).
Definition proofB : TxProof :=
  (9003, mkMerkleBranch 29 [160; 171001721; 502; 504005044; 73]).
Definition isB : Notarisation -> bool := GetCrossChainProof_isTarget "B".
Definition A_leaves : list uint256 := [504; 503; 502; A_merkle_root 1].

End Scenario.


(** ** CompleteImportTransaction (lines 212-229) *)

Section ImportCompleter.

Variable Hash : uint256 -> uint256 -> uint256.
Variable GetSymbolAuthority : string -> Z.
Variable GetMerkleRoot : list uint256 -> uint256.
Variable CBlock_GetMerkleBranch : list uint256 -> Z -> list uint256.

(** Declared outside src/ and taken as parameters: the transactions, their
    outputs, the hash of a transaction and the three codecs of importcoin.h. *)
Variable CTransaction : Type.
Variable CTxOut : Type.
Variable GetHash : CTransaction -> uint256.
Variable UnmarshalImportTx :
  CTransaction -> option (TxProof * CTransaction * list CTxOut).
Variable UnmarshalBurnTx : CTransaction -> option (string * Z * uint256).
Variable MakeImportCoinTransaction :
  TxProof -> CTransaction -> list CTxOut -> CTransaction.

Variable st : NodeState.

(** The result is the final content of the reference parameter [importTx];
    it is assigned on the last line only. *)
Definition CompleteImportTransaction (importTx : CTransaction)
  : outcome CTransaction :=
  match UnmarshalImportTx importTx with
  | None => Throw "Couldn't parse importTx"
  | Some (proof, burnTx, payouts) =>
      match UnmarshalBurnTx burnTx with
      | None => Throw "Couldn't parse burnTx"
      | Some (targetSymbol, targetCCid, payoutsHash) =>
          proof' <- GetCrossChainProof Hash GetSymbolAuthority GetMerkleRoot
                      CBlock_GetMerkleBranch st
                      (GetHash burnTx) targetSymbol targetCCid proof ;;
          Return (MakeImportCoinTransaction proof' burnTx payouts)
      end
  end.

End ImportCompleter.

(** ** Transactions to run CompleteImportTransaction on *)

Module ImportScenario.

(** A stand-in for the transactions of the node: a burn names its own hash,
    the target symbol, the target ccId and the hash of the payouts; an import
    carries a proof, the burn and the payouts. *)
Inductive toy_tx : Type :=
| Burn (txid : uint256) (targetSymbol : string) (targetCCid : Z)
       (payoutsHash : uint256)
| Import (proof : TxProof) (burnTx : toy_tx) (payouts : list Z)
| Other.

Definition toy_GetHash (tx : toy_tx) : uint256 :=
  match tx with
  | Burn txid _ _ _ => txid
  | _ => uint256_null
  end.

Definition toy_UnmarshalImportTx (tx : toy_tx)
  : option (TxProof * toy_tx * list Z) :=
  match tx with
  | Import proof burnTx payouts => Some (proof, burnTx, payouts)
  | _ => None
  end.

Definition toy_UnmarshalBurnTx (tx : toy_tx) : option (string * Z * uint256) :=
  match tx with
  | Burn _ targetSymbol targetCCid payoutsHash =>
      Some (targetSymbol, targetCCid, payoutsHash)
  | _ => None
  end.

(** The burn of the transaction [170] of A towards B, and its import with
    the proof that A gave. *)
Definition burn170 : toy_tx := Burn 170 "B" 3 4242.
Definition import170 : toy_tx := Import Scenario.proofA burn170 [10; 20].

End ImportScenario.

(** ** More chains to run the functions on *)

Module MoreScenario.

Import Scenario.

(** Assetchain A cut after block 1, the block of the transaction [170],
    which is then the tip. *)
Definition assetchain_tip : NodeState :=
  {| chainActive := map A_index [0; 1];
     mapBlockIndex := mapBlockIndex assetchain;
     GetBlockNotarisations := GetBlockNotarisations assetchain;
     GetBackNotarisation := GetBackNotarisation assetchain;
     GetTxConfirmed := GetTxConfirmed assetchain;
     GetTransaction := GetTransaction assetchain;
     ReadBlockFromDisk := ReadBlockFromDisk assetchain;
     fHavePruned := false;
     ASSETCHAINS_SYMBOL := "A";
     fopen_momom_on_kmd := true |}.

(** Assetchain A grown to ten blocks: after the backnotarisation of block 5
    a notarisation of another symbol is recorded in block 6, and in block 7
    one of another symbol before the next one of A. *)
Definition bnA1 : Notarisation := (7007, mkNotarisationData "A" 3 6 777 4 9010).
Definition bnC : Notarisation := (7107, mkNotarisationData "C" 3 6 778 4 9011).

Definition assetchain_with (db : list (uint256 * NotarisationsInBlock)) : NodeState :=
  {| chainActive := map A_index [0; 1; 2; 3; 4; 5; 6; 7; 8; 9];
     mapBlockIndex := mapBlockIndex assetchain;
     GetBlockNotarisations := lookup db;
     GetBackNotarisation := GetBackNotarisation assetchain;
     GetTxConfirmed := GetTxConfirmed assetchain;
     GetTransaction := GetTransaction assetchain;
     ReadBlockFromDisk := ReadBlockFromDisk assetchain;
     fHavePruned := false;
     ASSETCHAINS_SYMBOL := "A";
     fopen_momom_on_kmd := true |}.

Definition assetchain_next : NodeState :=
  assetchain_with [(1005, [bnA0]); (1006, [bnC]); (1007, [bnC; bnA1])].

(** The same chain with no notarisation of A after block 5. *)
Definition assetchain_foreign : NodeState :=
  assetchain_with [(1005, [bnA0]); (1006, [bnC])].

(** The hub on a node where /home/cc/momom_on_kmd cannot be opened. *)
Definition hub_no_file : NodeState :=
  {| chainActive := chainActive hub;
     mapBlockIndex := mapBlockIndex hub;
     GetBlockNotarisations := GetBlockNotarisations hub;
     GetBackNotarisation := GetBackNotarisation hub;
     GetTxConfirmed := GetTxConfirmed hub;
     GetTransaction := GetTransaction hub;
     ReadBlockFromDisk := ReadBlockFromDisk hub;
     fHavePruned := false;
     ASSETCHAINS_SYMBOL := "KMD";
     fopen_momom_on_kmd := false |}.

(** Assetchain A where the notarisation confirmed in block 5 pins height 4
    with a window of one block only, and gives as MoM the Merkle root of
    block 1. *)
Definition bnA0_shallow : Notarisation :=
  (7005, mkNotarisationData "A" 3 4 (A_merkle_root 1) 1 9002).

Definition assetchain_shallow : NodeState :=
  {| chainActive := chainActive assetchain;
     mapBlockIndex := mapBlockIndex assetchain;
     GetBlockNotarisations := lookup [(1005, [bnA0_shallow])];
     GetBackNotarisation := GetBackNotarisation assetchain;
     GetTxConfirmed := GetTxConfirmed assetchain;
     GetTransaction := GetTransaction assetchain;
     ReadBlockFromDisk := ReadBlockFromDisk assetchain;
     fHavePruned := false;
     ASSETCHAINS_SYMBOL := "A";
     fopen_momom_on_kmd := true |}.

(** A proof for the hub whose root is the MoM of no notarisation. *)
Definition proof_stale : TxProof := (9002, mkMerkleBranch 0 []).

(** The two halves of the proof that A gives for the transaction [170]. *)
Definition tx_half : MerkleBranch := mkMerkleBranch 1 [160; 171001721].
Definition block_half : MerkleBranch := mkMerkleBranch 3 [502; 504005044].

End MoreScenario.

(** ** Proofs *)

(** ** Branch composition *)

Lemma MerkleBranch_append_assoc (a b c : MerkleBranch) :
  MerkleBranch_append (MerkleBranch_append a b) c =
  MerkleBranch_append a (MerkleBranch_append b c).
Proof.
  unfold MerkleBranch_append; cbn [nIndex branch]. f_equal.
  - rewrite length_app, Nat2Z.inj_add, Z.shiftl_lor, Z.shiftl_shiftl by lia.
    rewrite Z.lor_assoc. f_equal. f_equal. f_equal. lia.
  - now rewrite app_assoc.
Qed.

Lemma concatenate_branches_assoc (a b c : MerkleBranch) :
  concatenate_branches (concatenate_branches a b) c =
  concatenate_branches a (concatenate_branches b c).
Proof.
  unfold concatenate_branches; cbn [nIndex branch]. f_equal.
  - rewrite length_app, Nat2Z.inj_add.
    rewrite !Z.shiftl_mul_pow2 by lia.
    rewrite Z.pow_add_r by lia. ring.
  - now rewrite app_assoc.
Qed.

(** The shift-and-add of the source and the shift-and-or of the spec give the
    same index whenever the lower index fits in the lower branch's bits. *)
Lemma concatenate_branches_append (lower upper : MerkleBranch) :
  0 <= nIndex lower < 2 ^ Z.of_nat (List.length (branch lower)) ->
  concatenate_branches lower upper = MerkleBranch_append lower upper.
Proof.
  intros Hr. unfold concatenate_branches, MerkleBranch_append. f_equal.
  set (n := Z.of_nat (List.length (branch lower))) in *.
  assert (Hn : 0 <= n) by (subst n; lia).
  rewrite <- Z.add_lor_land.
  enough (Hl : Z.land (Z.shiftl (nIndex upper) n) (nIndex lower) = 0) by lia.
  apply Z.bits_inj'. intros k Hk. rewrite Z.land_spec, Z.bits_0.
  destruct (Z.ltb_spec k n).
  - now rewrite Z.shiftl_spec_low by lia.
  - destruct (Z.eq_dec (nIndex lower) 0) as [->|Hne].
    + rewrite Z.bits_0. apply andb_false_r.
    + rewrite (Z.bits_above_log2 (nIndex lower) k); [apply andb_false_r|lia|].
      apply Z.lt_le_trans with n; [|lia].
      apply Z.log2_lt_pow2; lia.
Qed.

Section Proofs.

Variable Hash : uint256 -> uint256 -> uint256.
Variable malformed : uint256 -> list uint256 -> Z -> bool.
Variable GetSymbolAuthority : string -> Z.
Variable GetMerkleRoot : list uint256 -> uint256.
Variable BuildMerkleTree : list uint256 -> list uint256.
Variable GetMerkleBranch : Z -> Z -> list uint256 -> list uint256.
Variable CBlock_GetMerkleBranch : list uint256 -> Z -> list uint256.
Variable BLOCK_HAVE_DATA : Z.

Local Abbreviation CalculateProofRoot' :=
  (CalculateProofRoot GetSymbolAuthority GetMerkleRoot).
Local Abbreviation loop' := (CalculateProofRoot_loop GetSymbolAuthority).
Local Abbreviation examine' := (examine_block GetSymbolAuthority).
Local Abbreviation run' := (run_blocks GetSymbolAuthority).
Local Abbreviation GetCrossChainProof' :=
  (GetCrossChainProof Hash GetSymbolAuthority GetMerkleRoot CBlock_GetMerkleBranch).
Local Abbreviation GetAssetchainProof' :=
  (GetAssetchainProof Hash malformed BuildMerkleTree GetMerkleBranch
                      CBlock_GetMerkleBranch BLOCK_HAVE_DATA).
Local Abbreviation block_to_MoM' :=
  (block_to_MoM Hash malformed BuildMerkleTree GetMerkleBranch).

(** *** The forward scan *)

Lemma scan_block_hit f notas found nota :
  scan_block f notas found = (true, nota) -> In nota notas /\ f nota = true.
Proof.
  revert found. induction notas as [|x rest IH]; intros found H; cbn in H.
  - discriminate.
  - destruct (f x) eqn:Hf.
    + inversion H; subst. split; [now left | assumption].
    + destruct (IH _ H). split; [now right | assumption].
Qed.

Lemma scan_block_miss f notas found nota :
  scan_block f notas found = (false, nota) ->
  forall x, In x notas -> f x = false.
Proof.
  revert found. induction notas as [|y rest IH]; intros found H x Hx; cbn in H.
  - destruct Hx.
  - destruct (f y) eqn:Hf; [discriminate|].
    destruct Hx as [->|Hx]; [assumption | eauto].
Qed.

Lemma scan_block_exists f notas found :
  fst (scan_block f notas found) = existsb f notas.
Proof.
  revert found. induction notas as [|x rest IH]; intros found; cbn.
  - reflexivity.
  - destruct (f x); [reflexivity | apply IH].
Qed.

Lemma notarisations_at_Some st h pindex :
  chain_at st h = Some pindex ->
  notarisations_at st h = Some (GetBlockNotarisations st (phashBlock pindex)).
Proof. unfold notarisations_at. now intros ->. Qed.

Lemma chain_at_in_range st h :
  0 <= h <= chain_Height st -> exists pindex, chain_at st h = Some pindex.
Proof.
  unfold chain_at, chain_Height. intros Hh.
  destruct (Z.ltb_spec h 0); [lia|].
  destruct (nth_error (chainActive st) (Z.to_nat h)) eqn:E; [eauto|].
  apply nth_error_None in E. lia.
Qed.

(** A non-zero result of the loop is a height of its range where the
    predicate holds of the notarisation left in [found]. *)
Lemma ScanNotarisations_loop_hit st f n :
  forall h found0 r found,
    ScanNotarisations_loop st f n h found0 = Return (r, found) -> r <> 0 ->
    h <= r < h + Z.of_nat n /\ f found = true /\
    exists notas, notarisations_at st r = Some (Some notas) /\ In found notas.
Proof.
  induction n as [|n IH]; intros h found0 r found H Hr;
    cbn [ScanNotarisations_loop] in H.
  - inversion H; subst. congruence.
  - destruct (chain_at st h) as [pindex|] eqn:Hc; [|discriminate].
    destruct (GetBlockNotarisations st (phashBlock pindex)) as [notas|] eqn:Hn.
    + destruct (scan_block f notas found0) as [hit fnd] eqn:Hs.
      destruct hit.
      * inversion H; subst. apply scan_block_hit in Hs as [Hin Hf].
        split; [lia|]. split; [assumption|].
        exists notas. split; [|assumption].
        rewrite (notarisations_at_Some _ _ _ Hc). now rewrite Hn.
      * destruct (IH _ _ _ _ H Hr) as (Hrange & Hf & Hex).
        split; [lia|]. now split.
    + destruct (IH _ _ _ _ H Hr) as (Hrange & Hf & Hex).
      split; [lia|]. now split.
Qed.

(** The loop reads the node at the heights of its range only. *)
Lemma ScanNotarisations_loop_frame st st' f n :
  forall h found0,
    (forall k, h <= k < h + Z.of_nat n ->
               notarisations_at st' k = notarisations_at st k) ->
    ScanNotarisations_loop st' f n h found0 = ScanNotarisations_loop st f n h found0.
Proof.
  induction n as [|n IH]; intros h found0 Hsame; cbn [ScanNotarisations_loop].
  - reflexivity.
  - assert (Hh := Hsame h ltac:(lia)). unfold notarisations_at in Hh.
    destruct (chain_at st h) as [p|], (chain_at st' h) as [p'|];
      cbn in Hh; try discriminate; [|reflexivity].
    injection Hh as Hh. rewrite Hh.
    destruct (GetBlockNotarisations st (phashBlock p)) as [notas|].
    + destruct (scan_block f notas found0) as [[] fnd]; [reflexivity|].
      apply IH. intros k Hk. apply Hsame. lia.
    + apply IH. intros k Hk. apply Hsame. lia.
Qed.

(** Without a match in the range the loop returns 0. *)
Lemma ScanNotarisations_loop_none st f n :
  forall h found0,
    0 <= h -> (forall k, h <= k < h + Z.of_nat n -> k <= chain_Height st) ->
    (forall k notas nota, h <= k < h + Z.of_nat n ->
        notarisations_at st k = Some (Some notas) -> In nota notas -> f nota = false) ->
    exists found, ScanNotarisations_loop st f n h found0 = Return (0, found).
Proof.
  induction n as [|n IH]; intros h found0 Hh Hn Hno; cbn [ScanNotarisations_loop].
  - eauto.
  - assert (Hin_range : 0 <= h <= chain_Height st)
      by (split; [assumption | apply Hn; lia]).
    destruct (chain_at_in_range st h Hin_range) as [p Hp]. rewrite Hp.
    pose proof (notarisations_at_Some _ _ _ Hp) as Hat.
    destruct (GetBlockNotarisations st (phashBlock p)) as [notas|].
    + destruct (scan_block f notas found0) as [hit fnd] eqn:Hs.
      destruct hit.
      * apply scan_block_hit in Hs as [Hin Hf].
        rewrite (Hno h notas fnd ltac:(lia) Hat Hin) in Hf. discriminate.
      * apply IH; [lia| |]; [intros k Hk; apply Hn; lia|].
        intros k ns nota Hk. apply Hno. lia.
    + apply IH; [lia| |]; [intros k Hk; apply Hn; lia|].
      intros k ns nota Hk. apply Hno. lia.
Qed.

(** A match in the genesis block gives 0 as well. *)
Lemma ScanNotarisations_loop_genesis st f n found0 notas :
  notarisations_at st 0 = Some (Some notas) -> existsb f notas = true ->
  exists found, ScanNotarisations_loop st f (S n) 0 found0 = Return (0, found) /\
                f found = true /\ In found notas.
Proof.
  intros Hat Hex. cbn [ScanNotarisations_loop]. unfold notarisations_at in Hat.
  destruct (chain_at st 0) as [p|]; [|discriminate]. cbn in Hat.
  injection Hat as Hat. rewrite Hat.
  pose proof (scan_block_exists f notas found0) as Hfst.
  destruct (scan_block f notas found0) as [hit fnd] eqn:Hs. cbn in Hfst.
  rewrite Hex in Hfst. subst hit.
  apply scan_block_hit in Hs as [Hin Hf]. eauto.
Qed.

Lemma scan_limit_le_tip st nHeight : scan_limit st nHeight <= chain_Height st.
Proof. unfold scan_limit. lia. Qed.

Lemma GetCrossChainProof_scan_zero st txid targetSymbol targetCCid proof blockIdx found :
  GetTxConfirmed st (fst proof) = Some blockIdx ->
  ScanNotarisationsFromHeight st (nHeight blockIdx)
    (GetCrossChainProof_isTarget targetSymbol) Notarisation_default = Return (0, found) ->
  GetCrossChainProof' st txid targetSymbol targetCCid proof =
  Throw "Cannot find notarisation for target inclusive of source".
Proof.
  intros Htx Hscan. unfold GetCrossChainProof. rewrite Htx. cbv zeta.
  rewrite Hscan. reflexivity.
Qed.

Lemma GetAssetchainProof_scan_zero st hash blockHash blockIndex found :
  GetTransaction st hash = Some blockHash -> IsNull blockHash = false ->
  mapBlockIndex st blockHash = Some blockIndex ->
  ScanNotarisationsFromHeight st (nHeight blockIndex)
    (GetAssetchainProof_isTarget st blockIndex) Notarisation_default = Return (0, found) ->
  GetAssetchainProof' st hash = Throw "backnotarisation not yet confirmed".
Proof.
  intros Htx Hnull Hidx Hscan. unfold GetAssetchainProof, select_notarisation.
  rewrite Htx, Hnull, Hidx. cbv zeta. rewrite Hscan. reflexivity.
Qed.

Lemma GetNextBacknotarisation_scan_zero st kmdNotarisationTxid out bn block found :
  GetBackNotarisation st kmdNotarisationTxid = Some bn ->
  GetTxConfirmed st (fst bn) = Some block ->
  ScanNotarisationsFromHeight st (nHeight block + 1) (IsSameAssetChain st) out
    = Return (0, found) ->
  GetNextBacknotarisation st kmdNotarisationTxid out = Return (false, found).
Proof.
  intros Hbn Htx Hscan. unfold GetNextBacknotarisation.
  rewrite Hbn, Htx, Hscan. reflexivity.
Qed.

Lemma ScanNotarisationsFromHeight_hit st fromHeight f found0 :
  forall h found,
    ScanNotarisationsFromHeight st fromHeight f found0 = Return (h, found) ->
    h <> 0 ->
    fromHeight <= h < scan_limit st fromHeight /\ f found = true /\
    exists notas, notarisations_at st h = Some (Some notas) /\ In found notas.
Proof.
  unfold ScanNotarisationsFromHeight. cbv zeta. intros h found H Hh.
  destruct (ScanNotarisations_loop_hit _ _ _ _ _ _ _ H Hh) as (Hr & Hf & Hex).
  repeat split; [lia|lia|assumption|assumption].
Qed.

(** C10. The forward scan [ScanNotarisationsFromHeight nHeight f found] reads
    the blocks at the heights [nHeight <= h < min (nHeight + 1440) tip] and no
    other: a non-zero result is such a height, below the tip, and the result
    is the same on any node that agrees on these heights, so a notarisation
    of the tip block is never found. The function returns 0 when nothing in
    that range matches, and also when the first match is in the genesis
    block; each of the three callers takes the 0 for a failure. *)
Theorem ScanNotarisationsFromHeight_range_and_zero :
  forall (st : NodeState) (fromHeight : Z) (f : Notarisation -> bool)
         (found0 : Notarisation),
    (forall h found,
        ScanNotarisationsFromHeight st fromHeight f found0 = Return (h, found) ->
        h <> 0 ->
        fromHeight <= h < scan_limit st fromHeight /\ h < chain_Height st /\
        f found = true /\
        exists notas, notarisations_at st h = Some (Some notas) /\ In found notas) /\
    (forall st',
        chain_Height st' = chain_Height st ->
        (forall k, fromHeight <= k < scan_limit st fromHeight ->
                   notarisations_at st' k = notarisations_at st k) ->
        ScanNotarisationsFromHeight st' fromHeight f found0 =
        ScanNotarisationsFromHeight st fromHeight f found0) /\
    (0 <= fromHeight ->
     (forall k notas nota,
         fromHeight <= k < scan_limit st fromHeight ->
         notarisations_at st k = Some (Some notas) -> In nota notas ->
         f nota = false) ->
     exists found, ScanNotarisationsFromHeight st fromHeight f found0 = Return (0, found)) /\
    (fromHeight = 0 -> 0 < chain_Height st ->
     forall notas,
       notarisations_at st 0 = Some (Some notas) -> existsb f notas = true ->
       exists found,
         ScanNotarisationsFromHeight st fromHeight f found0 = Return (0, found) /\
         f found = true /\ In found notas) /\
    (forall txid targetSymbol targetCCid proof blockIdx found,
        GetTxConfirmed st (fst proof) = Some blockIdx ->
        ScanNotarisationsFromHeight st (nHeight blockIdx)
          (GetCrossChainProof_isTarget targetSymbol) Notarisation_default
          = Return (0, found) ->
        GetCrossChainProof' st txid targetSymbol targetCCid proof =
        Throw "Cannot find notarisation for target inclusive of source") /\
    (forall hash blockHash blockIndex found,
        GetTransaction st hash = Some blockHash -> IsNull blockHash = false ->
        mapBlockIndex st blockHash = Some blockIndex ->
        ScanNotarisationsFromHeight st (nHeight blockIndex)
          (GetAssetchainProof_isTarget st blockIndex) Notarisation_default
          = Return (0, found) ->
        GetAssetchainProof' st hash = Throw "backnotarisation not yet confirmed") /\
    (forall kmdNotarisationTxid out bn block found,
        GetBackNotarisation st kmdNotarisationTxid = Some bn ->
        GetTxConfirmed st (fst bn) = Some block ->
        ScanNotarisationsFromHeight st (nHeight block + 1) (IsSameAssetChain st) out
          = Return (0, found) ->
        GetNextBacknotarisation st kmdNotarisationTxid out = Return (false, found)).
Proof.
  intros st fromHeight f found0.
  pose proof (scan_limit_le_tip st fromHeight) as Htip.
  pose proof (ScanNotarisationsFromHeight_hit st fromHeight f found0) as Hhit.
  split; [|split; [|split; [|split; [|split; [|split]]]]].
  - intros h found H Hh. destruct (Hhit h found H Hh) as (Hr & Hf & Hex).
    repeat split; [lia|lia|lia|assumption|assumption].
  - intros st' Hheight Hsame. unfold ScanNotarisationsFromHeight. cbv zeta.
    assert (Hlim : scan_limit st' fromHeight = scan_limit st fromHeight)
      by (unfold scan_limit; now rewrite Hheight).
    rewrite Hlim. apply ScanNotarisations_loop_frame.
    intros k Hk. apply Hsame. lia.
  - intros Hn Hno. unfold ScanNotarisationsFromHeight. cbv zeta.
    apply ScanNotarisations_loop_none; [assumption|intros k Hk; lia|].
    intros k notas nota Hk. apply Hno. lia.
  - intros -> Hpos notas Hat Hex. unfold ScanNotarisationsFromHeight. cbv zeta.
    assert (Hlim : 0 < scan_limit st 0)
      by (unfold scan_limit, NOTARISATION_SCAN_LIMIT_BLOCKS; lia).
    destruct (Z.to_nat (scan_limit st 0 - 0)) as [|n] eqn:En; [lia|].
    now apply ScanNotarisations_loop_genesis.
  - apply GetCrossChainProof_scan_zero.
  - apply GetAssetchainProof_scan_zero.
  - apply GetNextBacknotarisation_scan_zero.
Qed.

(** *** The backward scan: one block *)

Lemma see_own_notarisation_none sym notas seen dest :
  has_own sym notas = false ->
  see_own_notarisation sym notas seen dest = OwnNext seen dest.
Proof.
  unfold has_own, is_own.
  induction notas as [|nota rest IH]; cbn; intros H; [reflexivity|].
  apply orb_false_iff in H as [H1 H2]. rewrite H1. now apply IH.
Qed.

Lemma see_own_notarisation_first sym notas nota seen dest :
  first_own sym notas = Some nota ->
  see_own_notarisation sym notas seen dest =
  if seen + 1 =? 1 then OwnNext (seen + 1) (fst nota)
  else if seen + 1 =? 2 then OwnGotoEnd
       else OwnNext (seen + 1) dest.
Proof.
  unfold first_own, is_own.
  induction notas as [|x rest IH]; cbn; intros H; [discriminate|].
  destruct (String.eqb (symbol (snd x)) sym).
  - now inversion H.
  - now apply IH.
Qed.

Lemma has_own_first_own sym notas :
  has_own sym notas = true <-> exists nota, first_own sym notas = Some nota.
Proof.
  unfold has_own, first_own. split.
  - intros H. apply existsb_exists in H as (x & Hin & Hx).
    destruct (find (is_own sym) notas) as [nota|] eqn:E; [eauto|].
    rewrite (find_none _ _ E x Hin) in Hx. discriminate.
  - intros (nota & H). apply find_some in H as [Hin Hx].
    apply existsb_exists. eauto.
Qed.

Lemma first_own_is_own sym notas nota :
  first_own sym notas = Some nota -> In nota notas /\ symbol (snd nota) = sym.
Proof.
  unfold first_own, is_own. intros H. apply find_some in H as [Hin Hx].
  split; [assumption | now apply String.eqb_eq].
Qed.

Lemma push_back_moms_eligible sym targetCCid notas :
  forall moms,
    push_back_moms GetSymbolAuthority (GetSymbolAuthority sym) targetCCid notas moms =
    moms ++ eligible_moms GetSymbolAuthority sym targetCCid notas.
Proof.
  unfold eligible_moms, eligible.
  induction notas as [|nota rest IH]; intros moms; cbn.
  - now rewrite app_nil_r.
  - rewrite IH.
    destruct (GetSymbolAuthority (symbol (snd nota)) =? GetSymbolAuthority sym);
      destruct (ccId (snd nota) =? targetCCid); cbn; try reflexivity.
    now rewrite <- app_assoc.
Qed.

(** The four transitions of the loop body. *)
Lemma examine_block_S0_other sym targetCCid notas moms dest :
  has_own sym notas = false ->
  examine' sym targetCCid (GetSymbolAuthority sym) notas 0 moms dest =
  BlockNext 0 moms dest.
Proof.
  intros H. unfold examine_block. now rewrite see_own_notarisation_none.
Qed.

Lemma examine_block_S0_own sym targetCCid notas nota moms dest :
  first_own sym notas = Some nota ->
  examine' sym targetCCid (GetSymbolAuthority sym) notas 0 moms dest =
  BlockNext 1 (moms ++ eligible_moms GetSymbolAuthority sym targetCCid notas) (fst nota).
Proof.
  intros H. unfold examine_block.
  rewrite (see_own_notarisation_first _ _ _ _ _ H). cbn.
  now rewrite push_back_moms_eligible.
Qed.

Lemma examine_block_S1_other sym targetCCid notas moms dest :
  has_own sym notas = false ->
  examine' sym targetCCid (GetSymbolAuthority sym) notas 1 moms dest =
  BlockNext 1 (moms ++ eligible_moms GetSymbolAuthority sym targetCCid notas) dest.
Proof.
  intros H. unfold examine_block. rewrite see_own_notarisation_none by assumption.
  cbn. now rewrite push_back_moms_eligible.
Qed.

Lemma examine_block_S1_own sym targetCCid notas moms dest :
  has_own sym notas = true ->
  examine' sym targetCCid (GetSymbolAuthority sym) notas 1 moms dest = BlockGotoEnd.
Proof.
  intros H. apply has_own_first_own in H as [nota H]. unfold examine_block.
  now rewrite (see_own_notarisation_first _ _ _ _ _ H).
Qed.

(** *** The backward scan: the loop is the body run over the window *)

Lemma CalculateProofRoot_loop_run st sym targetCCid kmdHeight authority n :
  forall i seen moms dest,
    0 <= i -> kmdHeight <= chain_Height st ->
    loop' st sym targetCCid kmdHeight authority n i seen moms dest =
    Return (run' sym targetCCid authority
              (records_at st
                 (map (fun k => kmdHeight - Z.of_nat k)
                      (seq (Z.to_nat i) (Nat.min n (Z.to_nat (kmdHeight + 1 - i))))))
              seen moms dest).
Proof.
  induction n as [|n IH]; intros i seen moms dest Hi Htip;
    cbn [CalculateProofRoot_loop].
  - reflexivity.
  - destruct (Z.gtb_spec i kmdHeight) as [Hgt|Hle].
    + replace (Z.to_nat (kmdHeight + 1 - i)) with 0%nat by lia.
      rewrite Nat.min_0_r. reflexivity.
    + replace (Z.to_nat (kmdHeight + 1 - i))
        with (S (Z.to_nat (kmdHeight + 1 - (i + 1)))) by lia.
      rewrite <- Nat.succ_min_distr. cbn [seq map records_at flat_map].
      replace (S (Z.to_nat i)) with (Z.to_nat (i + 1)) by lia.
      replace (kmdHeight - Z.of_nat (Z.to_nat i)) with (kmdHeight - i) by lia.
      destruct (chain_at_in_range st (kmdHeight - i) ltac:(lia)) as [p Hp].
      rewrite Hp, (notarisations_at_Some _ _ _ Hp).
      destruct (GetBlockNotarisations st (phashBlock p)) as [notas|].
      * cbn [app run_blocks].
        destruct (examine' sym targetCCid authority notas seen moms dest);
          [apply IH; lia | reflexivity].
      * cbn [app]. apply IH; lia.
Qed.

Lemma CalculateProofRoot_loop_window st sym targetCCid kmdHeight authority moms dest :
  0 <= kmdHeight <= chain_Height st ->
  loop' st sym targetCCid kmdHeight authority
    (Z.to_nat NOTARISATION_SCAN_LIMIT_BLOCKS) 0 0 moms dest =
  Return (run' sym targetCCid authority (scan_window st kmdHeight) 0 moms dest).
Proof.
  intros Hh. rewrite CalculateProofRoot_loop_run by lia.
  unfold scan_window, scanned_heights.
  replace (Nat.min (Z.to_nat NOTARISATION_SCAN_LIMIT_BLOCKS)
                   (Z.to_nat (kmdHeight + 1 - 0)))
    with (Z.to_nat (Z.min NOTARISATION_SCAN_LIMIT_BLOCKS (kmdHeight + 1)))
    by (unfold NOTARISATION_SCAN_LIMIT_BLOCKS; lia).
  reflexivity.
Qed.

(** *** The backward scan: the three states *)

Local Abbreviation collected' := (collected_moms GetSymbolAuthority).

(** From state S1: the run collects from every block up to the next block
    with an own notarisation, where it ends. *)
Lemma run_blocks_S1 sym targetCCid blocks :
  forall moms dest,
    let run := run' sym targetCCid (GetSymbolAuthority sym) blocks 1 moms dest in
    (quiet sym blocks /\
     run = LoopOut 1 (moms ++ collected' sym targetCCid blocks) dest) \/
    (exists mid b2 rest,
        blocks = mid ++ b2 :: rest /\ quiet sym mid /\ has_own sym b2 = true /\
        run = LoopEnd (moms ++ collected' sym targetCCid mid) dest).
Proof.
  unfold quiet, collected_moms.
  induction blocks as [|b blocks IH]; intros moms dest; cbn [run_blocks]; cbv zeta.
  - left. split; [constructor|]. cbn. now rewrite app_nil_r.
  - destruct (has_own sym b) eqn:Hb.
    + right. exists [], b, blocks. rewrite (examine_block_S1_own _ _ _ _ _ Hb).
      cbn. rewrite app_nil_r. repeat split; [constructor | assumption].
    + rewrite (examine_block_S1_other _ _ _ _ _ Hb).
      destruct (IH (moms ++ eligible_moms GetSymbolAuthority sym targetCCid b) dest)
        as [[Hq Hrun] | (mid & b2 & rest & -> & Hq & Hb2 & Hrun)]; cbv zeta in Hrun.
      * left. split; [now constructor|]. rewrite Hrun. cbn.
        now rewrite <- app_assoc.
      * right. exists (b :: mid), b2, rest. rewrite Hrun. cbn.
        rewrite <- app_assoc. repeat split; [now constructor | assumption].
Qed.

(** From state S0: nothing is collected before the first block with an own
    notarisation; from that block on the run is as from S1, the block
    itself included. *)
Lemma run_blocks_S0 sym targetCCid blocks :
  forall moms dest,
    let run := run' sym targetCCid (GetSymbolAuthority sym) blocks 0 moms dest in
    (quiet sym blocks /\ run = LoopOut 0 moms dest) \/
    (exists pre b1 n1 mid,
        blocks = pre ++ b1 :: mid /\ quiet sym pre /\
        first_own sym b1 = Some n1 /\ quiet sym mid /\
        run = LoopOut 1 (moms ++ collected' sym targetCCid (b1 :: mid)) (fst n1)) \/
    (exists pre b1 n1 mid b2 rest,
        blocks = pre ++ b1 :: mid ++ b2 :: rest /\ quiet sym pre /\
        first_own sym b1 = Some n1 /\ quiet sym mid /\ has_own sym b2 = true /\
        run = LoopEnd (moms ++ collected' sym targetCCid (b1 :: mid)) (fst n1)).
Proof.
  induction blocks as [|b blocks IH]; intros moms dest; cbn [run_blocks]; cbv zeta.
  - left. split; [constructor | reflexivity].
  - destruct (has_own sym b) eqn:Hb.
    + destruct (proj1 (has_own_first_own sym b) Hb) as [n1 Hn1].
      rewrite (examine_block_S0_own _ _ _ _ _ _ Hn1).
      assert (Hcons : forall l, collected' sym targetCCid (b :: l) =
                eligible_moms GetSymbolAuthority sym targetCCid b
                ++ collected' sym targetCCid l) by reflexivity.
      destruct (run_blocks_S1 sym targetCCid blocks
                  (moms ++ eligible_moms GetSymbolAuthority sym targetCCid b) (fst n1))
        as [[Hq Hrun] | (mid & b2 & rest & -> & Hq & Hb2 & Hrun)]; cbv zeta in Hrun.
      * right; left. exists [], b, n1, blocks. rewrite Hrun, Hcons, app_assoc.
        repeat split; [constructor | assumption | assumption].
      * right; right. exists [], b, n1, mid, b2, rest.
        rewrite Hrun, Hcons, app_assoc.
        repeat split; [constructor | assumption | assumption | assumption].
    + rewrite (examine_block_S0_other _ _ _ _ _ Hb).
      destruct (IH moms dest)
        as [[Hq Hrun] | [(pre & b1 & n1 & mid & -> & Hq & Hn1 & Hm & Hrun)
                        | (pre & b1 & n1 & mid & b2 & rest & -> & Hq & Hn1 & Hm & Hb2 & Hrun)]];
        cbv zeta in Hrun; rewrite Hrun.
      * left. split; [now constructor | reflexivity].
      * right; left. exists (b :: pre), b1, n1, mid.
        repeat split; [now constructor | assumption | assumption].
      * right; right. exists (b :: pre), b1, n1, mid, b2, rest.
        repeat split; [now constructor | assumption | assumption | assumption].
Qed.

Lemma quiet_filter sym blocks :
  quiet sym blocks -> filter (has_own sym) blocks = [].
Proof.
  induction 1 as [|b blocks Hb _ IH]; cbn; [reflexivity|]. now rewrite Hb.
Qed.

Lemma filter_cons_true {A} (f : A -> bool) x l :
  f x = true -> filter f (x :: l) = x :: filter f l.
Proof. intros H. cbn. now rewrite H. Qed.

(** With valid arguments the call is the loop over the window followed by
    the two ends of the function. *)
Lemma CalculateProofRoot_valid st sym targetCCid kmdHeight moms dest :
  2 <= targetCCid -> 0 <= kmdHeight <= chain_Height st ->
  CalculateProofRoot' st sym targetCCid kmdHeight moms dest =
  match run' sym targetCCid (GetSymbolAuthority sym)
             (scan_window st kmdHeight) 0 moms dest with
  | LoopEnd moms' dest' => Return (GetMerkleRoot moms', moms', dest')
  | LoopOut _ _ _ => Return (uint256_null, [], uint256_null)
  end.
Proof.
  intros Hcc Hh. unfold CalculateProofRoot.
  destruct (Z.ltb_spec targetCCid 2); [lia|].
  destruct (Z.ltb_spec kmdHeight 0); [lia|].
  destruct (Z.gtb_spec kmdHeight (chain_Height st)); [lia|].
  cbn [orb]. cbv zeta. rewrite CalculateProofRoot_loop_window by assumption.
  reflexivity.
Qed.

Lemma CalculateProofRoot_rejects st sym targetCCid kmdHeight moms dest :
  targetCCid < 2 \/ kmdHeight < 0 \/ kmdHeight > chain_Height st ->
  CalculateProofRoot' st sym targetCCid kmdHeight moms dest =
  Return (uint256_null, moms, dest).
Proof.
  intros H. unfold CalculateProofRoot.
  destruct (Z.ltb_spec targetCCid 2); [reflexivity|].
  destruct (Z.ltb_spec kmdHeight 0); [reflexivity|].
  destruct (Z.gtb_spec kmdHeight (chain_Height st)); [reflexivity|]. lia.
Qed.

Lemma collected_moms_provenance sym targetCCid blocks :
  Forall (fun m => exists notas nota,
              In notas blocks /\ In nota notas /\ MoM (snd nota) = m /\
              GetSymbolAuthority (symbol (snd nota)) = GetSymbolAuthority sym /\
              ccId (snd nota) = targetCCid)
         (collected' sym targetCCid blocks).
Proof.
  apply Forall_forall. intros m Hm. unfold collected_moms in Hm.
  apply in_concat in Hm as (ms & Hms & Hm).
  apply in_map_iff in Hms as (notas & <- & Hnotas).
  unfold eligible_moms in Hm. apply in_map_iff in Hm as (nota & <- & Hnota).
  apply filter_In in Hnota as [Hin Hel]. unfold eligible in Hel.
  apply andb_true_iff in Hel as [Ha Hc].
  exists notas, nota. repeat split; [assumption | assumption | lia | lia].
Qed.

(** *** Claims on CalculateProofRoot *)

(** C3. CalculateProofRoot returns a non-null root only after the backward
    scan has seen two blocks with a notarisation of the symbol: [b1], where
    [destNotarisationTxid] is taken, and [b2], where the loop body ends in
    [goto end]. The returned MoMs are those of [b1] and of the blocks between
    the two; none comes from [b2] or from a block behind it. *)
Theorem CalculateProofRoot_root_needs_two_own :
  forall (st : NodeState) (sym : string) (targetCCid kmdHeight : Z)
         (moms0 : list uint256) (dest0 root : uint256) (moms : list uint256)
         (dest : uint256),
    CalculateProofRoot' st sym targetCCid kmdHeight moms0 dest0
      = Return (root, moms, dest) ->
    root <> uint256_null ->
    exists pre b1 n1 mid b2 rest,
      scan_window st kmdHeight = pre ++ b1 :: mid ++ b2 :: rest /\
      quiet sym pre /\ first_own sym b1 = Some n1 /\
      quiet sym mid /\ has_own sym b2 = true /\
      examine' sym targetCCid (GetSymbolAuthority sym) b2 1 moms dest = BlockGotoEnd /\
      dest = fst n1 /\
      moms = moms0 ++ collected' sym targetCCid (b1 :: mid) /\
      root = GetMerkleRoot moms.
Proof.
  intros st sym targetCCid kmdHeight moms0 dest0 root moms dest Hcall Hroot.
  destruct (Z_lt_le_dec targetCCid 2) as [Hc|Hc];
    [rewrite CalculateProofRoot_rejects in Hcall by lia; congruence|].
  destruct (Z_lt_le_dec kmdHeight 0) as [Hl|Hl];
    [rewrite CalculateProofRoot_rejects in Hcall by lia; congruence|].
  destruct (Z_lt_le_dec (chain_Height st) kmdHeight) as [Hg|Hg];
    [rewrite CalculateProofRoot_rejects in Hcall by lia; congruence|].
  rewrite CalculateProofRoot_valid in Hcall by lia.
  destruct (run_blocks_S0 sym targetCCid (scan_window st kmdHeight) moms0 dest0)
    as [[_ Hrun] | [(pre & b1 & n1 & mid & _ & _ & _ & _ & Hrun)
                   | (pre & b1 & n1 & mid & b2 & rest & Hw & Hq & Hn1 & Hm & Hb2 & Hrun)]];
    cbv zeta in Hrun; rewrite Hrun in Hcall; try congruence.
  injection Hcall as <- <- <-.
  exists pre, b1, n1, mid, b2, rest.
  repeat split; try assumption. now apply examine_block_S1_own.
Qed.

(** C4. In a call of CalculateProofRoot that passes the two guards, the
    window of the scan splits into the blocks seen in state S0 ([pre]), the
    blocks seen in state S1 ([collected], starting with the block of the
    first own notarisation) and the rest ([tail], starting with the block
    where the scan ends). The MoMs appended to [moms] are those of the
    notarisations of [collected] with the authority of the target symbol
    and the target ccId, block after block in the order of the visit and
    within a block in the order of its record. *)
Theorem CalculateProofRoot_collects_in_state_S1 :
  forall (st : NodeState) (sym : string) (targetCCid kmdHeight : Z)
         (moms0 : list uint256) (dest0 : uint256),
    2 <= targetCCid -> 0 <= kmdHeight <= chain_Height st ->
    exists pre collected tail exit,
      loop' st sym targetCCid kmdHeight (GetSymbolAuthority sym)
            (Z.to_nat NOTARISATION_SCAN_LIMIT_BLOCKS) 0 0 moms0 dest0 = Return exit /\
      scan_window st kmdHeight = pre ++ collected ++ tail /\
      quiet sym pre /\
      (collected = [] /\ tail = [] \/
       exists b1 n1 mid,
         collected = b1 :: mid /\ first_own sym b1 = Some n1 /\ quiet sym mid) /\
      match exit with
      | LoopEnd _ _ => exists b2 rest, tail = b2 :: rest /\ has_own sym b2 = true
      | LoopOut _ _ _ => tail = []
      end /\
      exit_moms exit = moms0 ++ collected' sym targetCCid collected /\
      Forall (fun m => exists notas nota,
                  In notas collected /\ In nota notas /\ MoM (snd nota) = m /\
                  GetSymbolAuthority (symbol (snd nota)) = GetSymbolAuthority sym /\
                  ccId (snd nota) = targetCCid)
             (collected' sym targetCCid collected) /\
      CalculateProofRoot' st sym targetCCid kmdHeight moms0 dest0 =
      Return match exit with
             | LoopEnd moms dest => (GetMerkleRoot moms, moms, dest)
             | LoopOut _ _ _ => (uint256_null, [], uint256_null)
             end.
Proof.
  intros st sym targetCCid kmdHeight moms0 dest0 Hcc Hh.
  rewrite CalculateProofRoot_valid, CalculateProofRoot_loop_window by assumption.
  destruct (run_blocks_S0 sym targetCCid (scan_window st kmdHeight) moms0 dest0)
    as [[Hq Hrun] | [(pre & b1 & n1 & mid & Hw & Hq & Hn1 & Hm & Hrun)
                   | (pre & b1 & n1 & mid & b2 & rest & Hw & Hq & Hn1 & Hm & Hb2 & Hrun)]];
    cbv zeta in Hrun; rewrite Hrun.
  - exists (scan_window st kmdHeight), [], [], (LoopOut 0 moms0 dest0).
    rewrite !app_nil_r. cbn.
    repeat split; try assumption; [now left | constructor].
  - exists pre, (b1 :: mid), [], (LoopOut 1 (moms0 ++ collected' sym targetCCid (b1 :: mid)) (fst n1)).
    rewrite app_nil_r. cbn [exit_moms].
    repeat split; try assumption;
      [right; exists b1, n1, mid; repeat split; assumption
      | apply collected_moms_provenance].
  - exists pre, (b1 :: mid), (b2 :: rest),
      (LoopEnd (moms0 ++ collected' sym targetCCid (b1 :: mid)) (fst n1)).
    cbn [exit_moms].
    repeat split; try assumption;
      [right; exists b1, n1, mid; repeat split; assumption
      | exists b2, rest; split; [reflexivity | assumption]
      | apply collected_moms_provenance].
Qed.

(** C5, as the code has it. A call of CalculateProofRoot with
    [targetCCid < 2], or with [kmdHeight] negative or above the tip, returns
    a null root whatever the chain holds, and leaves its two reference
    parameters as they were passed (lines 45-49 do not touch them): a null
    root, an empty MoM vector and a null destNotarisationTxid is the result
    for the empty vector and the null hash that GetCrossChainProof passes,
    not for every call. *)
Theorem CalculateProofRoot_rejects_reserved_ccid_and_height :
  forall (st : NodeState) (sym : string) (targetCCid kmdHeight : Z),
    targetCCid < 2 \/ kmdHeight < 0 \/ kmdHeight > chain_Height st ->
    CalculateProofRoot' st sym targetCCid kmdHeight [] uint256_null
      = Return (uint256_null, [], uint256_null) /\
    forall moms0 dest0,
      CalculateProofRoot' st sym targetCCid kmdHeight moms0 dest0
        = Return (uint256_null, moms0, dest0).
Proof.
  intros st sym targetCCid kmdHeight H.
  split; [|intros moms0 dest0]; now apply CalculateProofRoot_rejects.
Qed.

(** C6. When the loop of CalculateProofRoot runs out (at the limit of 1440
    blocks or below the genesis) the call returns a null root, an empty
    vector and a null destNotarisationTxid, whatever had been collected; and
    the loop does run out, in state S0 or S1, whenever fewer than two blocks
    of the window hold a notarisation of the symbol. *)
Theorem CalculateProofRoot_window_exhausted :
  forall (st : NodeState) (sym : string) (targetCCid kmdHeight : Z)
         (moms0 : list uint256) (dest0 : uint256),
    2 <= targetCCid -> 0 <= kmdHeight <= chain_Height st ->
    (forall seen moms dest,
        loop' st sym targetCCid kmdHeight (GetSymbolAuthority sym)
              (Z.to_nat NOTARISATION_SCAN_LIMIT_BLOCKS) 0 0 moms0 dest0
          = Return (LoopOut seen moms dest) ->
        CalculateProofRoot' st sym targetCCid kmdHeight moms0 dest0
          = Return (uint256_null, [], uint256_null)) /\
    ((List.length (filter (has_own sym) (scan_window st kmdHeight)) < 2)%nat ->
     (exists seen moms dest,
         loop' st sym targetCCid kmdHeight (GetSymbolAuthority sym)
               (Z.to_nat NOTARISATION_SCAN_LIMIT_BLOCKS) 0 0 moms0 dest0
           = Return (LoopOut seen moms dest) /\
         seen = Z.of_nat (List.length (filter (has_own sym) (scan_window st kmdHeight)))) /\
     CalculateProofRoot' st sym targetCCid kmdHeight moms0 dest0
       = Return (uint256_null, [], uint256_null)).
Proof.
  intros st sym targetCCid kmdHeight moms0 dest0 Hcc Hh.
  rewrite CalculateProofRoot_valid, CalculateProofRoot_loop_window by assumption.
  split.
  - intros seen moms dest Hloop. injection Hloop as ->. reflexivity.
  - intros Hfew.
    destruct (run_blocks_S0 sym targetCCid (scan_window st kmdHeight) moms0 dest0)
      as [[Hq Hrun] | [(pre & b1 & n1 & mid & Hw & Hq & Hn1 & Hm & Hrun)
                     | (pre & b1 & n1 & mid & b2 & rest & Hw & Hq & Hn1 & Hm & Hb2 & Hrun)]];
      cbv zeta in Hrun; rewrite Hrun.
    + split; [|reflexivity]. do 3 eexists. split; [reflexivity|].
      now rewrite (quiet_filter _ _ Hq).
    + split; [|reflexivity]. do 3 eexists. split; [reflexivity|].
      assert (Hb1 : has_own sym b1 = true) by (apply has_own_first_own; eauto).
      rewrite Hw, filter_app, (quiet_filter _ _ Hq), (filter_cons_true _ _ _ Hb1),
        (quiet_filter _ _ Hm). reflexivity.
    + exfalso.
      assert (Hb1 : has_own sym b1 = true) by (apply has_own_first_own; eauto).
      rewrite Hw, filter_app, (filter_cons_true _ _ _ Hb1), filter_app,
        (filter_cons_true _ _ _ Hb2), !length_app in Hfew.
      cbn [List.length] in Hfew. rewrite length_app in Hfew.
      cbn [List.length] in Hfew. lia.
Qed.

Lemma own_count_has_own sym notas :
  (1 <= own_count sym notas)%nat -> has_own sym notas = true.
Proof.
  unfold own_count, has_own.
  induction notas as [|nota rest IH]; cbn; intros H; [lia|].
  destruct (is_own sym nota); [reflexivity | now apply IH].
Qed.

Lemma see_own_notarisation_stops_at_first sym before nota after seen dest :
  has_own sym before = false -> is_own sym nota = true ->
  see_own_notarisation sym (before ++ nota :: after) seen dest =
  see_own_notarisation sym (before ++ [nota]) seen dest.
Proof.
  unfold has_own, is_own. intros Hb Hn.
  induction before as [|x before IH]; cbn in *.
  - now rewrite Hn.
  - apply orb_false_iff in Hb as [Hx Hb]. rewrite Hx. now apply IH.
Qed.

(** C7, as the code has it. A block with two (or more) notarisations of the
    scanned symbol counts once: the loop of lines 63-74 leaves at the first
    of them, so what follows it in the record has no part in the count.
    Reached in state S1 the block ends the scan, its first own notarisation
    being the second one seen; reached in state S0 it takes the scan to
    state S1, with the txid of its first own notarisation and the eligible
    MoMs of the whole block, and the scan goes on. *)
Theorem examine_block_two_own_counts_once :
  forall (sym : string) (targetCCid : Z) (notas : NotarisationsInBlock)
         (moms : list uint256) (dest : uint256),
    (2 <= own_count sym notas)%nat ->
    exists n1,
      first_own sym notas = Some n1 /\
      examine' sym targetCCid (GetSymbolAuthority sym) notas 1 moms dest
        = BlockGotoEnd /\
      examine' sym targetCCid (GetSymbolAuthority sym) notas 0 moms dest
        = BlockNext 1 (moms ++ eligible_moms GetSymbolAuthority sym targetCCid notas)
                    (fst n1) /\
      forall before after seen,
        notas = before ++ n1 :: after -> has_own sym before = false ->
        see_own_notarisation sym notas seen dest =
        see_own_notarisation sym (before ++ [n1]) seen dest.
Proof.
  intros sym targetCCid notas moms dest Htwo.
  assert (Hown : has_own sym notas = true) by (apply own_count_has_own; lia).
  destruct (proj1 (has_own_first_own sym notas) Hown) as [n1 Hn1].
  exists n1. split; [assumption|]. split; [now apply examine_block_S1_own|].
  split; [now apply examine_block_S0_own|].
  intros before after seen -> Hb.
  apply see_own_notarisation_stops_at_first; [assumption|].
  apply find_some in Hn1. apply Hn1.
Qed.

(** *** Claims on the two provers *)

Lemma bind_Return {A B} (m : outcome A) (k : A -> outcome B) (b : B) :
  bind m k = Return b -> exists a, m = Return a /\ k a = Return b.
Proof. destruct m; cbn; intros H; try discriminate. eauto. Qed.

Lemma select_notarisation_inv st hash blockIndex nota :
  select_notarisation st hash = Return (blockIndex, nota) ->
  exists blockHash h,
    GetTransaction st hash = Some blockHash /\ IsNull blockHash = false /\
    mapBlockIndex st blockHash = Some blockIndex /\
    ScanNotarisationsFromHeight st (nHeight blockIndex)
      (GetAssetchainProof_isTarget st blockIndex) Notarisation_default
      = Return (h, nota) /\
    h <> 0 /\
    IsSameAssetChain st nota = true /\ nHeight blockIndex <= height (snd nota).
Proof.
  unfold select_notarisation. intros H.
  destruct (GetTransaction st hash) as [blockHash|]; [|discriminate].
  destruct (IsNull blockHash) eqn:Hnull; [discriminate|].
  destruct (mapBlockIndex st blockHash) as [bi|] eqn:Hidx; [|discriminate].
  cbv zeta in H. apply bind_Return in H as ([h found] & Hscan & H). cbn [fst snd] in H.
  destruct (Z.eqb_spec h 0) as [|Hh]; [discriminate|].
  injection H as -> ->.
  destruct (ScanNotarisationsFromHeight_hit _ _ _ _ _ _ Hscan Hh) as (_ & Hf & _).
  unfold GetAssetchainProof_isTarget in Hf.
  destruct (IsSameAssetChain st nota) eqn:Hsame; cbn in Hf; [|discriminate].
  exists blockHash, h. repeat split; try assumption. lia.
Qed.

(** C1. Whenever GetAssetchainProof returns, the pair it returns is the
    [txHash] of the selected notarisation (the first one of the own symbol,
    pinning a height not below the transaction's block, that the forward
    scan finds) with a branch whose [Exec] on the transaction hash is that
    notarisation's MoM: the function has compared the two itself (line 347)
    and throws when they differ. The same holds of [SafeCheckMerkleBranch]
    on the returned branch unless it takes the input for malformed. *)
Theorem GetAssetchainProof_reproduces_MoM :
  forall (st : NodeState) (hash : uint256) (result : TxProof),
    GetAssetchainProof' st hash = Return result ->
    exists blockIndex nota,
      select_notarisation st hash = Return (blockIndex, nota) /\
      IsSameAssetChain st nota = true /\
      nHeight blockIndex <= height (snd nota) /\
      fst result = txHash (snd nota) /\
      Exec Hash (snd result) hash = MoM (snd nota) /\
      (malformed hash (branch (snd result)) (nIndex (snd result)) = false ->
       SafeCheckMerkleBranch Hash malformed hash (branch (snd result))
                             (nIndex (snd result)) = MoM (snd nota)).
Proof.
  intros st hash result H. unfold GetAssetchainProof in H.
  apply bind_Return in H as ([blockIndex nota] & Hsel & H).
  apply bind_Return in H as (branch_ & Hbranch & H).
  destruct (fHavePruned st && _ && _); [discriminate|].
  destruct (ReadBlockFromDisk st blockIndex) as [block|]; [|discriminate].
  destruct (index_from hash (vtx block) 0) as [nTxIndex|]; [|discriminate].
  cbv zeta in H.
  destruct (negb (block_hashMerkleRoot block =? _)); [discriminate|].
  match type of H with
  | (if negb (?a =? ?b) then _ else _) = _ =>
      destruct (Z.eqb_spec a b) as [Heq|Hne]; cbn [negb] in H; [|discriminate]
  end.
  injection H as <-.
  destruct (select_notarisation_inv _ _ _ _ Hsel)
    as (_ & _ & _ & _ & _ & _ & _ & Hsame & Hge).
  exists blockIndex, nota. cbn [fst snd]. unfold Exec, SafeCheckMerkleBranch.
  repeat split; try assumption; [now symmetry|].
  intros ->. now symmetry.
Qed.

(** C2. Whenever GetCrossChainProof returns, the branch it returns executes
    on the transaction hash to the MoMoM that CalculateProofRoot gives at the
    height found by the forward scan from the source notarisation's block,
    and the first component is the destNotarisationTxid that this same call
    of CalculateProofRoot has set. *)
Theorem GetCrossChainProof_reproduces_MoMoM :
  forall (st : NodeState) (txid : uint256) (targetSymbol : string)
         (targetCCid : Z) (assetChainProof result : TxProof),
    GetCrossChainProof' st txid targetSymbol targetCCid assetChainProof
      = Return result ->
    exists blockIdx kmdHeight found MoMoM moms,
      GetTxConfirmed st (fst assetChainProof) = Some blockIdx /\
      ScanNotarisationsFromHeight st (nHeight blockIdx)
        (GetCrossChainProof_isTarget targetSymbol) Notarisation_default
        = Return (kmdHeight, found) /\
      kmdHeight <> 0 /\
      CalculateProofRoot' st targetSymbol targetCCid kmdHeight [] uint256_null
        = Return (MoMoM, moms, fst result) /\
      MoMoM <> uint256_null /\
      Exec Hash (snd result) txid = MoMoM.
Proof.
  intros st txid targetSymbol targetCCid assetChainProof result H.
  unfold GetCrossChainProof in H.
  destruct (GetTxConfirmed st (fst assetChainProof)) as [blockIdx|]; [|discriminate].
  cbv zeta in H. apply bind_Return in H as ([kmdHeight found] & Hscan & H).
  cbn [fst snd] in H.
  destruct (Z.eqb_spec kmdHeight 0) as [|Hh]; [discriminate|].
  apply bind_Return in H as ([[MoMoM moms] dest] & Hroot & H).
  unfold IsNull in H.
  destruct (Z.eqb_spec MoMoM 0) as [|Hnull]; [discriminate|].
  destruct (fopen_momom_on_kmd st); [|discriminate]. cbn [negb] in H.
  destruct (index_from _ moms 0) as [nIndex_|]; [|discriminate].
  match type of H with
  | (if negb (?a =? ?b) then _ else _) = _ =>
      destruct (Z.eqb_spec a b) as [Heq|Hne]; cbn [negb] in H; [|discriminate]
  end.
  injection H as <-.
  exists blockIdx, kmdHeight, found, MoMoM, moms. cbn [fst snd].
  repeat split; assumption.
Qed.

Lemma MoM_leaves_spec st notaHeight n :
  forall i acc leaves,
    MoM_leaves st notaHeight n i acc = Return leaves ->
    exists tail,
      leaves = acc ++ tail /\ List.length tail = n /\
      forall k, (k < n)%nat ->
        exists pindex,
          chain_at st (notaHeight - (i + Z.of_nat k)) = Some pindex /\
          nth_error tail k = Some (hashMerkleRoot pindex).
Proof.
  induction n as [|n IH]; intros i acc leaves H; cbn [MoM_leaves] in H.
  - injection H as <-. exists []. rewrite app_nil_r.
    repeat split. intros k Hk. lia.
  - destruct (chain_at st (notaHeight - i)) as [p|] eqn:Hp; [|discriminate].
    destruct (IH _ _ _ H) as (tail & -> & Hlen & Hnth).
    exists (hashMerkleRoot p :: tail). rewrite <- app_assoc.
    repeat split; [cbn; lia|].
    intros [|k] Hk.
    + exists p. rewrite Z.add_0_r. now split.
    + destruct (Hnth k ltac:(lia)) as (q & Hq & Hk').
      exists q. split; [|assumption].
      now replace (i + Z.of_nat (S k)) with (i + 1 + Z.of_nat k) by lia.
Qed.

(** C8, as the code has it. In GetAssetchainProof the leaf index is
    [nIndex = nota.height - tx_block_height], which is not negative; the
    leaves are the block Merkle roots at the heights [nota.height],
    [nota.height - 1], ..., [nota.height - MoMDepth + 1] in this order. The
    leaf at [nIndex] is the Merkle root of the transaction's block when that
    block is on the active chain and inside the window
    ([nIndex < MoMDepth]); the code tests neither, and outside the window
    there is no leaf at [nIndex]. The branch derived for [nIndex] is
    accepted exactly when [SafeCheckMerkleBranch] of the Merkle root of the
    block index with it is the notarisation's MoM; the call throws
    "Failed merkle block->MoM" exactly when it is not, so that a call that
    returns has passed the comparison. *)
Theorem GetAssetchainProof_MoM_leaf_index :
  forall (st : NodeState) (hash : uint256) (blockIndex : CBlockIndex)
         (nota : Notarisation) (leaves : list uint256),
    select_notarisation st hash = Return (blockIndex, nota) ->
    MoM_leaves st (height (snd nota)) (Z.to_nat (MoMDepth (snd nota))) 0 []
      = Return leaves ->
    let nIndex_ := height (snd nota) - nHeight blockIndex in
    let branch_ := GetMerkleBranch nIndex_ (Z.of_nat (List.length leaves))
                                   (BuildMerkleTree leaves) in
    let ourResult :=
      SafeCheckMerkleBranch Hash malformed (hashMerkleRoot blockIndex)
                            branch_ nIndex_ in
    0 <= nIndex_ /\
    Z.of_nat (List.length leaves) = Z.max 0 (MoMDepth (snd nota)) /\
    (forall i, 0 <= i < MoMDepth (snd nota) ->
        exists pindex,
          chain_at st (height (snd nota) - i) = Some pindex /\
          nth_error leaves (Z.to_nat i) = Some (hashMerkleRoot pindex)) /\
    (nIndex_ < MoMDepth (snd nota) ->
     chain_at st (nHeight blockIndex) = Some blockIndex ->
     nth_error leaves (Z.to_nat nIndex_) = Some (hashMerkleRoot blockIndex)) /\
    (MoMDepth (snd nota) <= nIndex_ ->
     nth_error leaves (Z.to_nat nIndex_) = None) /\
    block_to_MoM' st blockIndex nota nIndex_ =
      (if MoM (snd nota) =? ourResult then Return branch_
       else Throw "Failed merkle block->MoM") /\
    (GetAssetchainProof' st hash = Throw "Failed merkle block->MoM" <->
     ourResult <> MoM (snd nota)) /\
    (forall result,
        GetAssetchainProof' st hash = Return result ->
        ourResult = MoM (snd nota)).
Proof.
  intros st hash blockIndex nota leaves Hsel Hleaves nIndex_ branch_ ourResult.
  destruct (select_notarisation_inv _ _ _ _ Hsel)
    as (_ & _ & _ & _ & _ & _ & _ & _ & Hge).
  destruct (MoM_leaves_spec _ _ _ _ _ _ Hleaves) as (tail & Heq & Hlen & Hnth).
  cbn [app] in Heq. subst tail.
  assert (Hleaf : forall i, 0 <= i < MoMDepth (snd nota) ->
            exists pindex,
              chain_at st (height (snd nota) - i) = Some pindex /\
              nth_error leaves (Z.to_nat i) = Some (hashMerkleRoot pindex)).
  { intros i Hi. destruct (Hnth (Z.to_nat i) ltac:(lia)) as (p & Hp & Hk).
    exists p. split; [|assumption].
    now replace (0 + Z.of_nat (Z.to_nat i)) with i in Hp by lia. }
  assert (Hblock : block_to_MoM' st blockIndex nota nIndex_ =
            (if MoM (snd nota) =? ourResult then Return branch_
             else Throw "Failed merkle block->MoM")).
  { unfold block_to_MoM. rewrite Hleaves. cbn [bind]. cbv zeta.
    fold branch_. fold ourResult.
    destruct (MoM (snd nota) =? ourResult); reflexivity. }
  assert (Hthrow : ourResult <> MoM (snd nota) ->
            GetAssetchainProof' st hash = Throw "Failed merkle block->MoM").
  { intros Hne. unfold GetAssetchainProof. rewrite Hsel. cbn [bind]. cbv zeta.
    fold nIndex_. rewrite Hblock.
    destruct (Z.eqb_spec (MoM (snd nota)) ourResult); [congruence | reflexivity]. }
  assert (Hgoes_on : ourResult = MoM (snd nota) ->
            GetAssetchainProof' st hash <> Throw "Failed merkle block->MoM").
  { intros Hsame. unfold GetAssetchainProof. rewrite Hsel. cbn [bind]. cbv zeta.
    fold nIndex_. rewrite Hblock, <- Hsame, Z.eqb_refl. cbn [bind].
    destruct (fHavePruned st && _ && _); [discriminate|].
    destruct (ReadBlockFromDisk st blockIndex) as [block|]; [|discriminate].
    destruct (index_from hash (vtx block) 0) as [nTxIndex|]; [|discriminate].
    destruct (negb (block_hashMerkleRoot block =? _)); [discriminate|].
    destruct (negb _); discriminate. }
  split; [subst nIndex_; lia|]. split; [lia|]. split; [exact Hleaf|].
  split; [|split; [|split; [exact Hblock | split]]].
  - intros Hin Hactive. destruct (Hleaf nIndex_ ltac:(lia)) as (p & Hp & Hk).
    replace (height (snd nota) - nIndex_) with (nHeight blockIndex) in Hp
      by (subst nIndex_; lia).
    rewrite Hactive in Hp. injection Hp as <-. exact Hk.
  - intros Hout. apply nth_error_None. lia.
  - split; [|exact Hthrow].
    intros Hres Hsame. exact (Hgoes_on Hsame Hres).
  - intros result Hres.
    destruct (Z.eq_dec ourResult (MoM (snd nota))) as [|Hne]; [assumption|].
    rewrite (Hthrow Hne) in Hres. discriminate.
Qed.

(** C9. Composition of Merkle branches is associative, in the sibling
    sequence and in the combined index alike: for the [operator<<] of the
    spec, which concatenates the lower siblings before the upper ones and
    takes [(upper_index << len(lower_siblings)) | lower_index], and for the
    composition written out in GetAssetchainProof, which adds the lower index
    where the spec takes the bitwise or. *)
Theorem MerkleBranch_composition_assoc :
  forall a b c : MerkleBranch,
    MerkleBranch_append (MerkleBranch_append a b) c =
    MerkleBranch_append a (MerkleBranch_append b c) /\
    branch (MerkleBranch_append (MerkleBranch_append a b) c) =
    branch a ++ branch b ++ branch c /\
    nIndex (MerkleBranch_append (MerkleBranch_append a b) c) =
    Z.lor (Z.shiftl (nIndex c) (Z.of_nat (List.length (branch a ++ branch b))))
          (Z.lor (Z.shiftl (nIndex b) (Z.of_nat (List.length (branch a)))) (nIndex a)) /\
    concatenate_branches (concatenate_branches a b) c =
    concatenate_branches a (concatenate_branches b c).
Proof.
  intros a b c. split; [apply MerkleBranch_append_assoc|].
  split; [cbn; now rewrite app_assoc|].
  split; [reflexivity | apply concatenate_branches_assoc].
Qed.

End Proofs.

(** ** The theorems at work on the concrete federation *)

Import Scenario.

Lemma GetAssetchainProof_reproduces_MoM_witness :
  GetAssetchainProof toy_hash never_malformed BuildMerkleTree GetMerkleBranch
    CBlock_GetMerkleBranch HAVE_DATA assetchain 170 = Return proofA /\
  exists blockIndex nota,
    select_notarisation assetchain 170 = Return (blockIndex, nota) /\
    IsSameAssetChain assetchain nota = true /\
    nHeight blockIndex <= height (snd nota) /\
    fst proofA = txHash (snd nota) /\
    Exec toy_hash (snd proofA) 170 = MoM (snd nota) /\
    (never_malformed 170 (branch (snd proofA)) (nIndex (snd proofA)) = false ->
     SafeCheckMerkleBranch toy_hash never_malformed 170 (branch (snd proofA))
                           (nIndex (snd proofA)) = MoM (snd nota)).
Proof.
  split; [vm_compute; reflexivity|].
  apply (GetAssetchainProof_reproduces_MoM toy_hash never_malformed BuildMerkleTree
           GetMerkleBranch CBlock_GetMerkleBranch HAVE_DATA assetchain 170 proofA).
  vm_compute; reflexivity.
Defined.

Lemma GetCrossChainProof_reproduces_MoMoM_witness :
  GetCrossChainProof toy_hash one_authority GetMerkleRoot CBlock_GetMerkleBranch
    hub 170 "B" 3 proofA = Return proofB /\
  exists blockIdx kmdHeight found MoMoM moms,
    GetTxConfirmed hub (fst proofA) = Some blockIdx /\
    ScanNotarisationsFromHeight hub (nHeight blockIdx) isB Notarisation_default
      = Return (kmdHeight, found) /\
    kmdHeight <> 0 /\
    CalculateProofRoot one_authority GetMerkleRoot hub "B" 3 kmdHeight [] uint256_null
      = Return (MoMoM, moms, fst proofB) /\
    MoMoM <> uint256_null /\
    Exec toy_hash (snd proofB) 170 = MoMoM.
Proof.
  split; [vm_compute; reflexivity|].
  apply (GetCrossChainProof_reproduces_MoMoM toy_hash one_authority GetMerkleRoot
           CBlock_GetMerkleBranch hub 170 "B" 3 proofA proofB).
  vm_compute; reflexivity.
Defined.

Lemma CalculateProofRoot_root_needs_two_own_witness :
  CalculateProofRoot one_authority GetMerkleRoot hub "B" 3 3 [] 0
    = Return (58409222363046207, [73; A_MoM], 9003) /\
  exists pre b1 n1 mid b2 rest,
    scan_window hub 3 = pre ++ b1 :: mid ++ b2 :: rest /\
    quiet "B" pre /\ first_own "B" b1 = Some n1 /\
    quiet "B" mid /\ has_own "B" b2 = true /\
    examine_block one_authority "B" 3 (one_authority "B") b2 1 [73; A_MoM] 9003
      = BlockGotoEnd /\
    9003 = fst n1 /\
    [73; A_MoM] = [] ++ collected_moms one_authority "B" 3 (b1 :: mid) /\
    58409222363046207 = GetMerkleRoot [73; A_MoM].
Proof.
  split; [vm_compute; reflexivity|].
  apply (CalculateProofRoot_root_needs_two_own one_authority GetMerkleRoot hub "B" 3 3
           [] 0 58409222363046207 [73; A_MoM] 9003).
  - vm_compute; reflexivity.
  - discriminate.
Defined.

Lemma CalculateProofRoot_collects_in_state_S1_witness :
  exists pre collected tail exit,
    CalculateProofRoot_loop one_authority hub "B" 3 3 (one_authority "B")
      (Z.to_nat NOTARISATION_SCAN_LIMIT_BLOCKS) 0 0 [] 0 = Return exit /\
    scan_window hub 3 = pre ++ collected ++ tail /\
    quiet "B" pre /\
    (collected = [] /\ tail = [] \/
     exists b1 n1 mid,
       collected = b1 :: mid /\ first_own "B" b1 = Some n1 /\ quiet "B" mid) /\
    match exit with
    | LoopEnd _ _ => exists b2 rest, tail = b2 :: rest /\ has_own "B" b2 = true
    | LoopOut _ _ _ => tail = []
    end /\
    exit_moms exit = [] ++ collected_moms one_authority "B" 3 collected /\
    Forall (fun m => exists notas nota,
                In notas collected /\ In nota notas /\ MoM (snd nota) = m /\
                one_authority (symbol (snd nota)) = one_authority "B" /\
                ccId (snd nota) = 3)
           (collected_moms one_authority "B" 3 collected) /\
    CalculateProofRoot one_authority GetMerkleRoot hub "B" 3 3 [] 0 =
    Return match exit with
           | LoopEnd moms dest => (GetMerkleRoot moms, moms, dest)
           | LoopOut _ _ _ => (uint256_null, [], uint256_null)
           end.
Proof.
  apply (CalculateProofRoot_collects_in_state_S1 one_authority GetMerkleRoot
           hub "B" 3 3 [] 0).
  - lia.
  - change (chain_Height hub) with 5. lia.
Defined.

Lemma CalculateProofRoot_rejects_reserved_ccid_and_height_witness :
  CalculateProofRoot one_authority GetMerkleRoot hub "A" 1 500 [] uint256_null
    = Return (uint256_null, [], uint256_null) /\
  forall moms0 dest0,
    CalculateProofRoot one_authority GetMerkleRoot hub "A" 1 500 moms0 dest0
      = Return (uint256_null, moms0, dest0).
Proof.
  apply (CalculateProofRoot_rejects_reserved_ccid_and_height one_authority
           GetMerkleRoot hub "A" 1 500).
  left. lia.
Defined.

(** C5, as stated, fails on a call that passes a vector and a txid that are
    not fresh: with [targetCCid = 1] the call returns at line 46 and both
    are as they were, neither empty nor null. *)
Lemma CalculateProofRoot_rejects_keeps_outputs_counterexample :
  CalculateProofRoot one_authority GetMerkleRoot hub "A" 1 500 [5] 7
    = Return (uint256_null, [5], 7) /\
  CalculateProofRoot one_authority GetMerkleRoot hub "A" 1 500 [5] 7
    <> Return (uint256_null, [], uint256_null).
Proof. split; [vm_compute; reflexivity | vm_compute; discriminate]. Qed.

(** One notarisation of B only within reach of the scan from height 2: the
    MoM 71 of block 1 is collected after the [5] passed in, then dropped. *)
Lemma CalculateProofRoot_window_exhausted_witness :
  CalculateProofRoot_loop one_authority hub "B" 3 2 (one_authority "B")
    (Z.to_nat NOTARISATION_SCAN_LIMIT_BLOCKS) 0 0 [5] 7
    = Return (LoopOut 1 [5; 71] 9001) /\
  CalculateProofRoot one_authority GetMerkleRoot hub "B" 3 2 [5] 7
    = Return (uint256_null, [], uint256_null).
Proof.
  split; [vm_compute; reflexivity|].
  destruct (CalculateProofRoot_window_exhausted one_authority GetMerkleRoot
              hub "B" 3 2 [5] 7) as [_ Hfew].
  - lia.
  - change (chain_Height hub) with 5. lia.
  - apply Hfew. vm_compute. lia.
Defined.

Lemma examine_block_two_own_counts_once_witness :
  (2 <= own_count "B" [nB1; nB2])%nat /\
  exists n1,
    first_own "B" [nB1; nB2] = Some n1 /\
    examine_block one_authority "B" 3 (one_authority "B") [nB1; nB2] 1 [] 0
      = BlockGotoEnd /\
    examine_block one_authority "B" 3 (one_authority "B") [nB1; nB2] 0 [] 0
      = BlockNext 1 ([] ++ eligible_moms one_authority "B" 3 [nB1; nB2]) (fst n1) /\
    forall before after seen,
      [nB1; nB2] = before ++ n1 :: after -> has_own "B" before = false ->
      see_own_notarisation "B" [nB1; nB2] seen 0 =
      see_own_notarisation "B" (before ++ [n1]) seen 0.
Proof.
  assert (Htwo : (2 <= own_count "B" [nB1; nB2])%nat) by (vm_compute; lia).
  split; [exact Htwo|].
  apply (examine_block_two_own_counts_once one_authority "B" 3 [nB1; nB2] [] 0 Htwo).
Defined.

(** C7, as stated, fails on the hub whose block 3 holds two notarisations of
    B: the scan from height 3 examines that block first, leaves it in state
    S1 with both MoMs collected, goes on to block 2 and runs out at the
    genesis, so the call returns nulls. *)
Lemma CalculateProofRoot_two_own_in_block_counterexample :
  scan_window hub_twice 3 = [[nB1; nB2]; [nA0]] /\
  own_count "B" [nB1; nB2] = 2%nat /\
  examine_block one_authority "B" 3 (one_authority "B") [nB1; nB2] 0 [] 0
    = BlockNext 1 [73; 74] 9003 /\
  CalculateProofRoot_loop one_authority hub_twice "B" 3 3 (one_authority "B")
    (Z.to_nat NOTARISATION_SCAN_LIMIT_BLOCKS) 0 0 [] 0
    = Return (LoopOut 1 [73; 74; A_MoM] 9003) /\
  CalculateProofRoot one_authority GetMerkleRoot hub_twice "B" 3 3 [] 0
    = Return (uint256_null, [], uint256_null).
Proof. repeat split; vm_compute; reflexivity. Qed.

Lemma GetAssetchainProof_MoM_leaf_index_witness :
  select_notarisation assetchain 170 = Return (A_index 1, bnA0) /\
  MoM_leaves assetchain 4 4 0 [] = Return A_leaves /\
  nth_error A_leaves 3 = Some (hashMerkleRoot (A_index 1)) /\
  SafeCheckMerkleBranch toy_hash never_malformed (hashMerkleRoot (A_index 1))
    (GetMerkleBranch 3 4 (BuildMerkleTree A_leaves)) 3 = A_MoM.
Proof.
  assert (Hsel : select_notarisation assetchain 170 = Return (A_index 1, bnA0))
    by (vm_compute; reflexivity).
  assert (Hleaves : MoM_leaves assetchain (height (snd bnA0))
                      (Z.to_nat (MoMDepth (snd bnA0))) 0 [] = Return A_leaves)
    by (vm_compute; reflexivity).
  destruct (GetAssetchainProof_MoM_leaf_index toy_hash never_malformed BuildMerkleTree
              GetMerkleBranch CBlock_GetMerkleBranch HAVE_DATA assetchain 170
              (A_index 1) bnA0 A_leaves Hsel Hleaves)
    as (_ & _ & _ & Hleaf & _ & _ & _ & Hpass).
  split; [exact Hsel|]. split; [exact Hleaves|]. split.
  - apply Hleaf; [vm_compute; reflexivity | vm_compute; reflexivity].
  - apply (Hpass proofA). vm_compute; reflexivity.
Defined.

(** C8, as stated, fails where the selected notarisation pins height 4 with
    a window of one block and gives the Merkle root of block 1 as its MoM:
    the leaves are [[504]], the index is 3, there is no leaf at the index,
    and yet the comparison of line 312 passes on the empty branch and the
    call returns a proof. *)
Lemma GetAssetchainProof_leaf_outside_window_counterexample :
  select_notarisation MoreScenario.assetchain_shallow 170
    = Return (A_index 1, MoreScenario.bnA0_shallow) /\
  MoM_leaves MoreScenario.assetchain_shallow 4 1 0 [] = Return [504] /\
  height (snd MoreScenario.bnA0_shallow) - nHeight (A_index 1) = 3 /\
  nth_error [504] 3 = None /\
  hashMerkleRoot (A_index 1) <> 504 /\
  GetAssetchainProof toy_hash never_malformed BuildMerkleTree GetMerkleBranch
    CBlock_GetMerkleBranch HAVE_DATA MoreScenario.assetchain_shallow 170
    = Return (9002, mkMerkleBranch 13 [160; 171001721]).
Proof.
  repeat split; try (vm_compute; reflexivity). vm_compute. discriminate.
Qed.

(** On the hub where B is notarised in the tip block only the scan from
    height 2 returns 0; on the hub where it is notarised in the genesis
    block only the scan from height 0 finds that notarisation and returns 0
    as well, GetCrossChainProof throwing on it; on the first hub the scan
    from height 2 returns the height 3, inside its range. *)
Lemma ScanNotarisationsFromHeight_range_and_zero_witness :
  (exists found,
      ScanNotarisationsFromHeight hub_tip_only 2 isB Notarisation_default
        = Return (0, found)) /\
  (exists found,
      ScanNotarisationsFromHeight hub_genesis_only 0 isB Notarisation_default
        = Return (0, found) /\ isB found = true /\ In found [nB0]) /\
  (2 <= 3 < scan_limit hub 2 /\ 3 < chain_Height hub).
Proof.
  split; [|split].
  - destruct (ScanNotarisationsFromHeight_range_and_zero toy_hash never_malformed
                one_authority GetMerkleRoot BuildMerkleTree GetMerkleBranch
                CBlock_GetMerkleBranch HAVE_DATA hub_tip_only 2 isB
                Notarisation_default) as (_ & _ & Hnone & _).
    apply Hnone; [lia|].
    change (scan_limit hub_tip_only 2) with 5.
    intros k notas nota Hk Hat Hin.
    assert (Hcases : k = 2 \/ k = 3 \/ k = 4) by lia.
    destruct Hcases as [-> | [-> | ->]]; vm_compute in Hat; try discriminate.
    injection Hat as <-. destruct Hin as [<- | []]. reflexivity.
  - destruct (ScanNotarisationsFromHeight_range_and_zero toy_hash never_malformed
                one_authority GetMerkleRoot BuildMerkleTree GetMerkleBranch
                CBlock_GetMerkleBranch HAVE_DATA hub_genesis_only 0 isB
                Notarisation_default) as (_ & _ & _ & Hgenesis & _).
    apply Hgenesis;
      [reflexivity | change (chain_Height hub_genesis_only) with 5; lia
      | vm_compute; reflexivity | vm_compute; reflexivity].
  - destruct (ScanNotarisationsFromHeight_range_and_zero toy_hash never_malformed
                one_authority GetMerkleRoot BuildMerkleTree GetMerkleBranch
                CBlock_GetMerkleBranch HAVE_DATA hub 2 isB
                Notarisation_default) as (Hhit & _).
    destruct (Hhit 3 nB1) as (Hr & Htip & _);
      [vm_compute; reflexivity | discriminate | split; assumption].
Defined.


(** ** Further properties of the code *)

Section FurtherProofs.

Variable Hash : uint256 -> uint256 -> uint256.
Variable malformed : uint256 -> list uint256 -> Z -> bool.
Variable GetSymbolAuthority : string -> Z.
Variable GetMerkleRoot : list uint256 -> uint256.
Variable BuildMerkleTree : list uint256 -> list uint256.
Variable GetMerkleBranch : Z -> Z -> list uint256 -> list uint256.
Variable CBlock_GetMerkleBranch : list uint256 -> Z -> list uint256.
Variable BLOCK_HAVE_DATA : Z.

Local Abbreviation CalculateProofRoot' :=
  (CalculateProofRoot GetSymbolAuthority GetMerkleRoot).
Local Abbreviation loop' := (CalculateProofRoot_loop GetSymbolAuthority).
Local Abbreviation run' := (run_blocks GetSymbolAuthority).
Local Abbreviation eligible' := (eligible GetSymbolAuthority).
Local Abbreviation collected' := (collected_moms GetSymbolAuthority).
Local Abbreviation GetCrossChainProof' :=
  (GetCrossChainProof Hash GetSymbolAuthority GetMerkleRoot CBlock_GetMerkleBranch).
Local Abbreviation GetAssetchainProof' :=
  (GetAssetchainProof Hash malformed BuildMerkleTree GetMerkleBranch
                      CBlock_GetMerkleBranch BLOCK_HAVE_DATA).
Local Abbreviation block_to_MoM' :=
  (block_to_MoM Hash malformed BuildMerkleTree GetMerkleBranch).

(** *** The forward scan: first match, completeness, the reference [found] *)

Lemma last_cons_default {A} (x : A) (l : list A) (d : A) :
  last (x :: l) d = last l x.
Proof.
  revert x d. induction l as [|y l IH]; intros x d; [reflexivity|].
  change (last (x :: y :: l) d) with (last (y :: l) d).
  now rewrite (IH y d), (IH y x).
Qed.

Lemma scan_block_find f notas found0 :
  scan_block f notas found0 =
  match find f notas with
  | Some nota => (true, nota)
  | None => (false, last notas found0)
  end.
Proof.
  revert found0. induction notas as [|x rest IH]; intros found0.
  - reflexivity.
  - cbn [scan_block find]. destruct (f x); [reflexivity|].
    rewrite IH, last_cons_default. reflexivity.
Qed.

Lemma find_none_iff {A} (f : A -> bool) l :
  find f l = None <-> forall x, In x l -> f x = false.
Proof.
  split; [apply find_none|].
  induction l as [|x l IH]; intros H; cbn; [reflexivity|].
  rewrite (H x (or_introl eq_refl)). apply IH. intros y Hy. apply H. now right.
Qed.

(** A non-zero result is the lowest height of the range with a match, and
    [found] is the first match in the record of that height. *)
Lemma ScanNotarisations_loop_first st f n :
  forall h found0 r found,
    ScanNotarisations_loop st f n h found0 = Return (r, found) -> r <> 0 ->
    0 <= h /\
    (forall k notas nota, h <= k < r ->
        notarisations_at st k = Some (Some notas) -> In nota notas ->
        f nota = false) /\
    exists notas, notarisations_at st r = Some (Some notas) /\
                  find f notas = Some found.
Proof.
  induction n as [|n IH]; intros h found0 r found H Hr;
    cbn [ScanNotarisations_loop] in H.
  - injection H as <- _. congruence.
  - destruct (chain_at st h) as [pindex|] eqn:Hc; [|discriminate].
    assert (Hh : 0 <= h).
    { unfold chain_at in Hc. destruct (Z.ltb_spec h 0); [discriminate | assumption]. }
    pose proof (notarisations_at_Some _ _ _ Hc) as Hat.
    destruct (GetBlockNotarisations st (phashBlock pindex)) as [notas|] eqn:Hn.
    + rewrite scan_block_find in H.
      destruct (find f notas) as [nota|] eqn:Hfind.
      * injection H as <- <-. split; [assumption|]. split; [intros; lia|].
        exists notas. now split.
      * destruct (IH _ _ _ _ H Hr) as (_ & Hbefore & Hex).
        split; [assumption|]. split; [|assumption].
        intros k ns x Hk Hk_at Hin.
        destruct (Z.eq_dec k h) as [->|Hne].
        -- rewrite Hat in Hk_at. injection Hk_at as <-.
           now apply (proj1 (find_none_iff f notas) Hfind).
        -- apply (Hbefore k ns x); [lia | assumption | assumption].
    + destruct (IH _ _ _ _ H Hr) as (_ & Hbefore & Hex).
      split; [assumption|]. split; [|assumption].
      intros k ns x Hk Hk_at Hin.
      destruct (Z.eq_dec k h) as [->|Hne].
      * rewrite Hat in Hk_at. discriminate.
      * apply (Hbefore k ns x); [lia | assumption | assumption].
Qed.

(** From a height that is not negative the loop never meets a null block
    index. *)
Lemma ScanNotarisations_loop_returns st f n :
  forall h found0,
    0 <= h -> (forall k, h <= k < h + Z.of_nat n -> k <= chain_Height st) ->
    exists r found, ScanNotarisations_loop st f n h found0 = Return (r, found).
Proof.
  induction n as [|n IH]; intros h found0 Hh Hn; cbn [ScanNotarisations_loop].
  - eauto.
  - assert (Hin_range : 0 <= h <= chain_Height st)
      by (split; [assumption | apply Hn; lia]).
    destruct (chain_at_in_range st h Hin_range) as [p ->].
    destruct (GetBlockNotarisations st (phashBlock p)) as [notas|].
    + destruct (scan_block f notas found0) as [[] fnd]; [eauto|].
      apply IH; [lia|]. intros k Hk. apply Hn. lia.
    + apply IH; [lia|]. intros k Hk. apply Hn. lia.
Qed.

(** Above the genesis a match in the range gives a non-zero result. *)
Lemma ScanNotarisations_loop_finds st f n :
  forall h found0 k notas,
    0 < h -> (forall j, h <= j < h + Z.of_nat n -> j <= chain_Height st) ->
    h <= k < h + Z.of_nat n ->
    notarisations_at st k = Some (Some notas) -> existsb f notas = true ->
    exists r found,
      ScanNotarisations_loop st f n h found0 = Return (r, found) /\ r <> 0.
Proof.
  induction n as [|n IH]; intros h found0 k notas Hh Hn Hk Hat Hex;
    cbn [ScanNotarisations_loop]; [lia|].
  assert (Hin_range : 0 <= h <= chain_Height st)
    by (split; [lia | apply Hn; lia]).
  destruct (chain_at_in_range st h Hin_range) as [p Hp]. rewrite Hp.
  pose proof (notarisations_at_Some _ _ _ Hp) as Hat_h.
  destruct (GetBlockNotarisations st (phashBlock p)) as [ns|] eqn:Hns.
  - pose proof (scan_block_exists f ns found0) as Hfst.
    destruct (scan_block f ns found0) as [[] fnd]; cbn in Hfst.
    + exists h, fnd. split; [reflexivity | lia].
    + destruct (Z.eq_dec k h) as [->|Hne].
      * rewrite Hat_h in Hat. injection Hat as <-. congruence.
      * apply (IH (h + 1) fnd k notas); try assumption; try lia.
        intros j Hj. apply Hn. lia.
  - destruct (Z.eq_dec k h) as [->|Hne].
    + rewrite Hat_h in Hat. discriminate.
    + apply (IH (h + 1) found0 k notas); try assumption; try lia.
      intros j Hj. apply Hn. lia.
Qed.

(** Above the genesis a result of 0 leaves in [found] what was passed in or
    a notarisation of the range that the predicate rejects. *)
Lemma ScanNotarisations_loop_zero_found st f n :
  forall h found0 found,
    0 < h ->
    ScanNotarisations_loop st f n h found0 = Return (0, found) ->
    found = found0 \/
    (f found = false /\
     exists k notas, h <= k < h + Z.of_nat n /\
                     notarisations_at st k = Some (Some notas) /\ In found notas).
Proof.
  induction n as [|n IH]; intros h found0 found Hh H;
    cbn [ScanNotarisations_loop] in H.
  - injection H as <-. now left.
  - destruct (chain_at st h) as [p|] eqn:Hp; [|discriminate].
    pose proof (notarisations_at_Some _ _ _ Hp) as Hat.
    destruct (GetBlockNotarisations st (phashBlock p)) as [notas|] eqn:Hns.
    + rewrite scan_block_find in H.
      destruct (find f notas) as [nota|] eqn:Hfind; [injection H as H0 _; lia|].
      destruct (IH (h + 1) _ _ ltac:(lia) H) as [-> | (Hf & k & ns & Hk & Hk_at & Hin)].
      * destruct notas as [|x rest]; [now left|].
        right. assert (Hlast : In (last (x :: rest) found0) (x :: rest)).
        { rewrite last_cons_default.
          clear. revert x. induction rest as [|y rest IHr]; intros x;
            [now left|].
          rewrite last_cons_default. right. apply IHr. }
        split; [now apply (proj1 (find_none_iff f (x :: rest)) Hfind)|].
        exists h, (x :: rest). repeat split; [lia | lia | assumption | assumption].
      * right. split; [assumption|]. exists k, ns.
        repeat split; [lia | lia | assumption | assumption].
    + destruct (IH (h + 1) _ _ ltac:(lia) H) as [-> | (Hf & k & ns & Hk & Hk_at & Hin)];
        [now left|].
      right. split; [assumption|]. exists k, ns.
      repeat split; [lia | lia | assumption | assumption].
Qed.

(** X1. A non-zero result of ScanNotarisationsFromHeight is the lowest
    height of the range whose record holds a notarisation accepted by the
    predicate, and the notarisation left in [found] is the first accepted
    one of that record. *)
Theorem ScanNotarisationsFromHeight_first_match :
  forall (st : NodeState) (fromHeight : Z) (f : Notarisation -> bool)
         (found0 found : Notarisation) (h : Z),
    ScanNotarisationsFromHeight st fromHeight f found0 = Return (h, found) ->
    h <> 0 ->
    (forall k notas nota,
        fromHeight <= k < h -> notarisations_at st k = Some (Some notas) ->
        In nota notas -> f nota = false) /\
    exists notas,
      notarisations_at st h = Some (Some notas) /\ find f notas = Some found.
Proof.
  intros st fromHeight f found0 found h H Hh.
  unfold ScanNotarisationsFromHeight in H. cbv zeta in H.
  destruct (ScanNotarisations_loop_first _ _ _ _ _ _ _ H Hh) as (_ & Hbefore & Hex).
  now split.
Qed.

(** X2. Started above the genesis, ScanNotarisationsFromHeight finds every
    match of its range: when some height [k] with
    [nHeight <= k < min (nHeight + 1440) tip] holds an accepted notarisation
    the result is a non-zero height not above [k]. *)
Theorem ScanNotarisationsFromHeight_finds :
  forall (st : NodeState) (fromHeight : Z) (f : Notarisation -> bool)
         (found0 : Notarisation) (k : Z) (notas : NotarisationsInBlock),
    0 < fromHeight -> fromHeight <= k < scan_limit st fromHeight ->
    notarisations_at st k = Some (Some notas) -> existsb f notas = true ->
    exists h found,
      ScanNotarisationsFromHeight st fromHeight f found0 = Return (h, found) /\
      h <> 0 /\ fromHeight <= h <= k /\ f found = true.
Proof.
  intros st fromHeight f found0 k notas Hpos Hk Hat Hex.
  pose proof (scan_limit_le_tip st fromHeight) as Htip.
  destruct (ScanNotarisations_loop_finds st f
              (Z.to_nat (scan_limit st fromHeight - fromHeight))
              fromHeight found0 k notas Hpos) as (h & found & Hscan & Hh);
    [intros j Hj; lia | lia | assumption | assumption |].
  exists h, found. unfold ScanNotarisationsFromHeight. cbv zeta.
  split; [assumption|]. split; [assumption|].
  destruct (ScanNotarisations_loop_hit _ _ _ _ _ _ _ Hscan Hh) as (Hr & Hf & _).
  destruct (ScanNotarisations_loop_first _ _ _ _ _ _ _ Hscan Hh) as (_ & Hbefore & _).
  split; [|assumption]. split; [lia|].
  destruct (Z_le_gt_dec h k) as [|Hgt]; [assumption|].
  apply existsb_exists in Hex as (x & Hin & Hx).
  rewrite (Hbefore k notas x ltac:(lia) Hat Hin) in Hx. discriminate.
Qed.

(** X3. Started at a height that is not negative,
    ScanNotarisationsFromHeight returns: it never dereferences a null block
    index, its range ending below the tip. *)
Theorem ScanNotarisationsFromHeight_returns :
  forall (st : NodeState) (fromHeight : Z) (f : Notarisation -> bool)
         (found0 : Notarisation),
    0 <= fromHeight ->
    exists h found,
      ScanNotarisationsFromHeight st fromHeight f found0 = Return (h, found) /\
      (h = 0 \/ fromHeight <= h < scan_limit st fromHeight).
Proof.
  intros st fromHeight f found0 Hpos.
  pose proof (scan_limit_le_tip st fromHeight) as Htip.
  destruct (ScanNotarisations_loop_returns st f
              (Z.to_nat (scan_limit st fromHeight - fromHeight))
              fromHeight found0 Hpos) as (h & found & Hscan);
    [intros j Hj; lia|].
  exists h, found. unfold ScanNotarisationsFromHeight. cbv zeta.
  split; [assumption|].
  destruct (Z.eq_dec h 0) as [|Hh]; [now left | right].
  destruct (ScanNotarisations_loop_hit _ _ _ _ _ _ _ Hscan Hh) as (Hr & _). lia.
Qed.

(** *** CalculateProofRoot: what it reads, when it succeeds *)

Lemma records_at_ext st st' heights :
  (forall h, In h heights -> notarisations_at st' h = notarisations_at st h) ->
  records_at st' heights = records_at st heights.
Proof.
  induction heights as [|h heights IH]; intros H; [reflexivity|].
  cbn [records_at flat_map]. rewrite (H h (or_introl eq_refl)).
  f_equal. apply IH. intros k Hk. apply H. now right.
Qed.

Lemma scanned_heights_range kmdHeight k :
  In k (scanned_heights kmdHeight) ->
  0 <= k /\ kmdHeight - NOTARISATION_SCAN_LIMIT_BLOCKS < k <= kmdHeight.
Proof.
  unfold scanned_heights. intros H.
  apply in_map_iff in H as (i & <- & Hi). apply in_seq in Hi. lia.
Qed.

(** X4. CalculateProofRoot never dereferences a null block index: the two
    guards keep every [chainActive[kmdHeight-i]] of the loop inside the
    chain, so that every call returns, and the root it returns is null or
    the Merkle root of the MoMs it returns. *)
Theorem CalculateProofRoot_returns :
  forall (st : NodeState) (sym : string) (targetCCid kmdHeight : Z)
         (moms0 : list uint256) (dest0 : uint256),
    exists root moms dest,
      CalculateProofRoot' st sym targetCCid kmdHeight moms0 dest0
        = Return (root, moms, dest) /\
      (root = uint256_null \/ root = GetMerkleRoot moms).
Proof.
  intros st sym targetCCid kmdHeight moms0 dest0.
  destruct (Z_lt_le_dec targetCCid 2) as [Hc|Hc];
    [rewrite CalculateProofRoot_rejects by lia; do 3 eexists; split;
       [reflexivity | now left]|].
  destruct (Z_lt_le_dec kmdHeight 0) as [Hl|Hl];
    [rewrite CalculateProofRoot_rejects by lia; do 3 eexists; split;
       [reflexivity | now left]|].
  destruct (Z_lt_le_dec (chain_Height st) kmdHeight) as [Hg|Hg];
    [rewrite CalculateProofRoot_rejects by lia; do 3 eexists; split;
       [reflexivity | now left]|].
  rewrite CalculateProofRoot_valid by lia.
  destruct (run' sym targetCCid (GetSymbolAuthority sym) (scan_window st kmdHeight)
              0 moms0 dest0) as [moms dest | seen moms dest];
    do 3 eexists; split; try reflexivity; [now right | now left].
Qed.

(** X5. CalculateProofRoot reads the chain at the heights
    [kmdHeight - 1439 .. kmdHeight] that are not negative, and nowhere else:
    on two nodes with the same tip height that agree on the records of
    these heights the call gives the same result. *)
Theorem CalculateProofRoot_reads_window_only :
  forall (st st' : NodeState) (sym : string) (targetCCid kmdHeight : Z)
         (moms0 : list uint256) (dest0 : uint256),
    chain_Height st' = chain_Height st ->
    (forall k, 0 <= k ->
               kmdHeight - NOTARISATION_SCAN_LIMIT_BLOCKS < k <= kmdHeight ->
               notarisations_at st' k = notarisations_at st k) ->
    CalculateProofRoot' st' sym targetCCid kmdHeight moms0 dest0 =
    CalculateProofRoot' st sym targetCCid kmdHeight moms0 dest0.
Proof.
  intros st st' sym targetCCid kmdHeight moms0 dest0 Htip Hsame.
  destruct (Z_lt_le_dec targetCCid 2) as [Hc|Hc];
    [now rewrite !CalculateProofRoot_rejects by lia|].
  destruct (Z_lt_le_dec kmdHeight 0) as [Hl|Hl];
    [now rewrite !CalculateProofRoot_rejects by lia|].
  destruct (Z_lt_le_dec (chain_Height st) kmdHeight) as [Hg|Hg];
    [now rewrite !CalculateProofRoot_rejects by lia|].
  rewrite !CalculateProofRoot_valid by lia.
  unfold scan_window. rewrite (records_at_ext st st'); [reflexivity|].
  intros h Hh. apply scanned_heights_range in Hh. now apply Hsame.
Qed.

(** X6. CalculateProofRoot succeeds as soon as two blocks of the window
    hold a notarisation of the symbol: with valid arguments the loop then
    ends in [goto end] and the call returns the Merkle root of the MoMs it
    has collected, with the txid of an own notarisation. Together with the
    exhaustion case this makes two such blocks the exact condition. *)
Theorem CalculateProofRoot_two_own_blocks_succeed :
  forall (st : NodeState) (sym : string) (targetCCid kmdHeight : Z)
         (moms0 : list uint256) (dest0 : uint256),
    2 <= targetCCid -> 0 <= kmdHeight <= chain_Height st ->
    (2 <= List.length (filter (has_own sym) (scan_window st kmdHeight)))%nat ->
    exists moms notas n1,
      CalculateProofRoot' st sym targetCCid kmdHeight moms0 dest0
        = Return (GetMerkleRoot moms, moms, fst n1) /\
      In notas (scan_window st kmdHeight) /\ first_own sym notas = Some n1.
Proof.
  intros st sym targetCCid kmdHeight moms0 dest0 Hcc Hh Htwo.
  rewrite CalculateProofRoot_valid by assumption.
  destruct (run_blocks_S0 GetSymbolAuthority sym targetCCid
              (scan_window st kmdHeight) moms0 dest0)
    as [[Hq Hrun] | [(pre & b1 & n1 & mid & Hw & Hq & Hn1 & Hm & Hrun)
                   | (pre & b1 & n1 & mid & b2 & rest & Hw & Hq & Hn1 & Hm & Hb2 & Hrun)]];
    cbv zeta in Hrun; rewrite Hrun.
  - rewrite (quiet_filter _ _ Hq) in Htwo. cbn in Htwo. lia.
  - assert (Hb1 : has_own sym b1 = true) by (apply has_own_first_own; eauto).
    rewrite Hw, filter_app, (quiet_filter _ _ Hq), (filter_cons_true _ _ _ Hb1),
      (quiet_filter _ _ Hm) in Htwo. cbn in Htwo. lia.
  - exists (moms0 ++ collected' sym targetCCid (b1 :: mid)), b1, n1.
    split; [reflexivity|]. split; [|assumption].
    rewrite Hw. apply in_or_app. right. now left.
Qed.

(** X7. When CalculateProofRoot returns a non-null root, the notarisation
    whose txid it gives as destNotarisationTxid is the first one of the
    symbol in a block of the window, and its own MoM is among the returned
    MoMs whenever its ccId is the target ccId. *)
Theorem CalculateProofRoot_dest_MoM_collected :
  forall (st : NodeState) (sym : string) (targetCCid kmdHeight : Z)
         (moms0 : list uint256) (dest0 root : uint256) (moms : list uint256)
         (dest : uint256),
    CalculateProofRoot' st sym targetCCid kmdHeight moms0 dest0
      = Return (root, moms, dest) ->
    root <> uint256_null ->
    exists notas n1,
      In notas (scan_window st kmdHeight) /\ first_own sym notas = Some n1 /\
      dest = fst n1 /\
      (ccId (snd n1) = targetCCid -> In (MoM (snd n1)) moms).
Proof.
  intros st sym targetCCid kmdHeight moms0 dest0 root moms dest Hcall Hroot.
  destruct (Z_lt_le_dec targetCCid 2) as [Hc|Hc];
    [rewrite CalculateProofRoot_rejects in Hcall by lia; congruence|].
  destruct (Z_lt_le_dec kmdHeight 0) as [Hl|Hl];
    [rewrite CalculateProofRoot_rejects in Hcall by lia; congruence|].
  destruct (Z_lt_le_dec (chain_Height st) kmdHeight) as [Hg|Hg];
    [rewrite CalculateProofRoot_rejects in Hcall by lia; congruence|].
  rewrite CalculateProofRoot_valid in Hcall by lia.
  destruct (run_blocks_S0 GetSymbolAuthority sym targetCCid
              (scan_window st kmdHeight) moms0 dest0)
    as [[_ Hrun] | [(pre & b1 & n1 & mid & _ & _ & _ & _ & Hrun)
                   | (pre & b1 & n1 & mid & b2 & rest & Hw & Hq & Hn1 & Hm & Hb2 & Hrun)]];
    cbv zeta in Hrun; rewrite Hrun in Hcall; try congruence.
  injection Hcall as <- <- <-.
  exists b1, n1. split; [rewrite Hw; apply in_or_app; right; now left|].
  split; [assumption|]. split; [reflexivity|].
  intros Hcc. apply in_or_app. right.
  unfold collected_moms. cbn [map List.concat]. apply in_or_app. left.
  unfold eligible_moms. apply in_map_iff. exists n1. split; [reflexivity|].
  destruct (first_own_is_own _ _ _ Hn1) as [Hin Hsym].
  apply filter_In. split; [assumption|].
  unfold eligible. rewrite Hsym, Hcc, !Z.eqb_refl. reflexivity.
Qed.

(** *** Composition of branches and of their checks *)

Lemma CheckMerkleBranch_app lower upper :
  forall h i j,
    0 <= i < 2 ^ Z.of_nat (List.length lower) ->
    CheckMerkleBranch Hash h (lower ++ upper)
      (Z.shiftl j (Z.of_nat (List.length lower)) + i) =
    CheckMerkleBranch Hash (CheckMerkleBranch Hash h lower i) upper j.
Proof.
  induction lower as [|s lower IH]; intros h i j Hi.
  - cbn in Hi. cbn [List.length app CheckMerkleBranch].
    rewrite Z.shiftl_0_r. f_equal. lia.
  - cbn [List.length] in *. rewrite Nat2Z.inj_succ in *.
    set (n := Z.of_nat (List.length lower)) in *.
    assert (Hn : 0 <= n) by (subst n; lia).
    rewrite Z.pow_succ_r in Hi by assumption.
    rewrite Z.shiftl_mul_pow2 by lia. rewrite Z.pow_succ_r by assumption.
    cbn [app CheckMerkleBranch].
    assert (Hbit : Z.testbit (j * (2 * 2 ^ n) + i) 0 = Z.testbit i 0).
    { rewrite !Z.bit0_odd.
      replace (j * (2 * 2 ^ n) + i) with (i + 2 * (j * 2 ^ n)) by ring.
      apply Z.odd_add_mul_2. }
    assert (Hshift : Z.shiftr (j * (2 * 2 ^ n) + i) 1
                     = Z.shiftl j n + Z.shiftr i 1).
    { rewrite !Z.shiftr_div_pow2 by lia. rewrite Z.shiftl_mul_pow2 by lia.
      change (2 ^ 1) with 2.
      replace (j * (2 * 2 ^ n) + i) with (j * 2 ^ n * 2 + i) by ring.
      rewrite Z.div_add_l by lia. reflexivity. }
    rewrite Hbit, Hshift. apply IH.
    rewrite Z.shiftr_div_pow2 by lia. change (2 ^ 1) with 2.
    split; [apply Z.div_pos; lia|].
    apply Z.div_lt_upper_bound; lia.
Qed.

(** X8. Checks compose with branches: when the index of the lower branch
    fits in its siblings ([0 <= index < 2^len]), executing the composed
    branch on a leaf is executing the upper branch on what the lower branch
    gives, for the composition of lines 342-343 and for [operator<<]
    alike. *)
Theorem Exec_composed_branch :
  forall (lower upper : MerkleBranch) (leaf : uint256),
    0 <= nIndex lower < 2 ^ Z.of_nat (List.length (branch lower)) ->
    Exec Hash (concatenate_branches lower upper) leaf
      = Exec Hash upper (Exec Hash lower leaf) /\
    Exec Hash (MerkleBranch_append lower upper) leaf
      = Exec Hash upper (Exec Hash lower leaf).
Proof.
  intros lower upper leaf Hfit.
  rewrite <- (concatenate_branches_append lower upper Hfit).
  unfold Exec, concatenate_branches. cbn [nIndex branch].
  split; now apply CheckMerkleBranch_app.
Qed.

(** *** The two search loops *)

Lemma index_from_Some x l :
  forall i j,
    index_from x l i = Some j ->
    i <= j < i + Z.of_nat (List.length l) /\
    nth_error l (Z.to_nat (j - i)) = Some x /\
    forall k, (k < Z.to_nat (j - i))%nat -> nth_error l k <> Some x.
Proof.
  induction l as [|y l IH]; intros i j H; cbn [index_from] in H; [discriminate|].
  destruct (Z.eqb_spec y x) as [->|Hne].
  - injection H as <-. rewrite Z.sub_diag. cbn [List.length].
    split; [lia|]. split; [reflexivity|]. intros k Hk. cbn in Hk. lia.
  - destruct (IH _ _ H) as (Hr & Hnth & Hfirst). cbn [List.length].
    replace (Z.to_nat (j - i)) with (S (Z.to_nat (j - (i + 1)))) by lia.
    split; [lia|]. split; [exact Hnth|].
    intros [|k] Hk; cbn; [congruence|]. apply Hfirst. lia.
Qed.

Lemma index_from_None x l :
  forall i, index_from x l i = None -> ~ In x l.
Proof.
  induction l as [|y l IH]; intros i H; cbn [index_from] in H; [intros []|].
  destruct (Z.eqb_spec y x) as [|Hne]; [discriminate|].
  intros [Heq | Hin]; [congruence | exact (IH _ H Hin)].
Qed.

(** *** GetCrossChainProof: the two scans together *)

Lemma run_blocks_S1_quiet_prefix sym targetCCid Q R :
  forall moms dest,
    quiet sym Q ->
    run' sym targetCCid (GetSymbolAuthority sym) (Q ++ R) 1 moms dest =
    run' sym targetCCid (GetSymbolAuthority sym) R 1
         (moms ++ collected' sym targetCCid Q) dest.
Proof.
  induction Q as [|b Q IH]; intros moms dest Hq.
  - cbn. now rewrite app_nil_r.
  - inversion Hq as [|? ? Hb HQ]; subst. cbn [app run_blocks].
    rewrite (examine_block_S1_other GetSymbolAuthority _ _ _ _ _ Hb).
    rewrite IH by assumption. unfold collected_moms. cbn [map List.concat].
    now rewrite app_assoc.
Qed.

Lemma run_blocks_S1_end sym targetCCid R moms dest moms' dest' :
  run' sym targetCCid (GetSymbolAuthority sym) R 1 moms dest = LoopEnd moms' dest' ->
  dest' = dest /\ exists extra, moms' = moms ++ extra.
Proof.
  intros H.
  destruct (run_blocks_S1 GetSymbolAuthority sym targetCCid R moms dest)
    as [[_ Hrun] | (mid & b2 & rest & _ & _ & _ & Hrun)]; cbv zeta in Hrun;
    rewrite Hrun in H; [discriminate|].
  injection H as <- <-. split; [reflexivity | eauto].
Qed.

Lemma In_records_at st heights h notas :
  In h heights -> notarisations_at st h = Some (Some notas) ->
  In notas (records_at st heights).
Proof.
  intros Hin Hat. unfold records_at. apply in_flat_map.
  exists h. split; [assumption|]. rewrite Hat. now left.
Qed.

Lemma In_records_at_inv st heights notas :
  In notas (records_at st heights) ->
  exists h, In h heights /\ notarisations_at st h = Some (Some notas).
Proof.
  unfold records_at. intros H. apply in_flat_map in H as (h & Hin & Hh).
  exists h. split; [assumption|].
  destruct (notarisations_at st h) as [[ns|]|]; try destruct Hh as [<- | []];
    try destruct Hh. reflexivity.
Qed.

Lemma eligible_moms_in sym targetCCid notas nota :
  In nota notas -> eligible' sym targetCCid nota = true ->
  In (MoM (snd nota)) (eligible_moms GetSymbolAuthority sym targetCCid notas).
Proof.
  intros Hin Hel. unfold eligible_moms. apply in_map_iff.
  exists nota. split; [reflexivity|]. now apply filter_In.
Qed.

Lemma collected_moms_in sym targetCCid blocks notas m :
  In notas blocks ->
  In m (eligible_moms GetSymbolAuthority sym targetCCid notas) ->
  In m (collected' sym targetCCid blocks).
Proof.
  intros Hb Hm. unfold collected_moms. apply in_concat.
  exists (eligible_moms GetSymbolAuthority sym targetCCid notas).
  split; [now apply in_map | assumption].
Qed.

Lemma scanned_heights_split t s :
  0 <= s <= t -> t - s < NOTARISATION_SCAN_LIMIT_BLOCKS ->
  exists below,
    scanned_heights t =
    t :: map (fun i => t - Z.of_nat i) (seq 1 (Z.to_nat (t - s))) ++ below.
Proof.
  intros Hs Hlim. unfold scanned_heights.
  set (N := Z.to_nat (Z.min NOTARISATION_SCAN_LIMIT_BLOCKS (t + 1))).
  replace N with (1 + (Z.to_nat (t - s) + (N - 1 - Z.to_nat (t - s))))%nat
    by (subst N; lia).
  rewrite seq_app, map_app, seq_app, map_app. cbn [seq map app Nat.add].
  rewrite Z.sub_0_r. eexists. reflexivity.
Qed.

(** The backward scan from the height that the forward scan has found. *)
Lemma CalculateProofRoot_after_forward_scan :
  forall (st : NodeState) (targetSymbol : string) (targetCCid s t : Z)
         (found0 found : Notarisation) (root : uint256) (moms : list uint256)
         (dest : uint256),
    ScanNotarisationsFromHeight st s (GetCrossChainProof_isTarget targetSymbol) found0
      = Return (t, found) ->
    t <> 0 ->
    CalculateProofRoot' st targetSymbol targetCCid t [] uint256_null
      = Return (root, moms, dest) ->
    root <> uint256_null ->
    dest = fst found /\
    forall k notas nota,
      s <= k <= t -> notarisations_at st k = Some (Some notas) ->
      In nota notas -> eligible' targetSymbol targetCCid nota = true ->
      In (MoM (snd nota)) moms.
Proof.
  intros st targetSymbol targetCCid s t found0 found root moms dest
         Hscan Ht Hcall Hroot.
  unfold ScanNotarisationsFromHeight in Hscan. cbv zeta in Hscan.
  destruct (ScanNotarisations_loop_hit _ _ _ _ _ _ _ Hscan Ht) as (Hrange & _ & _).
  destruct (ScanNotarisations_loop_first _ _ _ _ _ _ _ Hscan Ht)
    as (Hs & Hbefore & notas_t & Hat_t & Hfind).
  pose proof (scan_limit_le_tip st s) as Htip.
  assert (Hlim : t - s < NOTARISATION_SCAN_LIMIT_BLOCKS)
    by (unfold scan_limit in Hrange; lia).
  destruct (Z_lt_le_dec targetCCid 2) as [Hc|Hc];
    [rewrite CalculateProofRoot_rejects in Hcall by lia; congruence|].
  rewrite CalculateProofRoot_valid in Hcall by lia.
  destruct (scanned_heights_split t s ltac:(lia) Hlim) as [below Hsplit].
  set (between := map (fun i => t - Z.of_nat i) (seq 1 (Z.to_nat (t - s)))) in *.
  assert (Hbetween : forall h, In h between <-> s <= h < t).
  { intros h. subst between. rewrite in_map_iff. split.
    - intros (i & <- & Hi). apply in_seq in Hi. lia.
    - intros Hh. exists (Z.to_nat (t - h)). split; [lia|]. apply in_seq. lia. }
  assert (Hwindow : scan_window st t =
            notas_t :: records_at st between ++ records_at st below).
  { unfold scan_window. rewrite Hsplit. unfold records_at at 1.
    cbn [flat_map]. rewrite Hat_t, flat_map_app. reflexivity. }
  assert (Hquiet : quiet targetSymbol (records_at st between)).
  { apply Forall_forall. intros notas Hin.
    apply In_records_at_inv in Hin as (h & Hh & Hat).
    apply Hbetween in Hh. unfold has_own.
    destruct (existsb (is_own targetSymbol) notas) eqn:Hex; [|reflexivity].
    apply existsb_exists in Hex as (x & Hx & Hown).
    rewrite <- (Hbefore h notas x ltac:(lia) Hat Hx). symmetry. exact Hown. }
  rewrite Hwindow in Hcall. cbn [run_blocks] in Hcall.
  rewrite (examine_block_S0_own GetSymbolAuthority _ _ _ _ _ _ Hfind) in Hcall.
  rewrite run_blocks_S1_quiet_prefix in Hcall by assumption.
  destruct (run' targetSymbol targetCCid (GetSymbolAuthority targetSymbol)
              (records_at st below) 1 _ (fst found))
    as [moms' dest' | seen moms' dest'] eqn:Hrun;
    [|injection Hcall as <- _ _; congruence].
  injection Hcall as _ <- <-.
  destruct (run_blocks_S1_end _ _ _ _ _ _ _ Hrun) as (-> & extra & ->).
  split; [reflexivity|].
  intros k notas nota Hk Hat Hin Hel.
  apply in_or_app. left. apply in_or_app.
  destruct (Z.eq_dec k t) as [->|Hne].
  - left. apply in_or_app. right.
    rewrite Hat_t in Hat. injection Hat as <-. now apply eligible_moms_in.
  - right. apply (collected_moms_in _ _ _ notas).
    + apply (In_records_at _ _ k); [apply Hbetween; lia | assumption].
    + now apply eligible_moms_in.
Qed.

(** X9. The scans of GetCrossChainProof fit together (the comment of lines
    147-152): when the forward scan from height [s] has found a notarisation
    of the target symbol at height [t] and CalculateProofRoot at [t] returns
    a non-null root, the txid it returns is the one of the notarisation the
    forward scan found, and the returned MoMs hold the MoM of every
    notarisation with the target's authority and ccId recorded at a height
    from [s] to [t], those of the source's block among them. *)
Theorem CalculateProofRoot_brackets_forward_scan :
  forall (st : NodeState) (targetSymbol : string) (targetCCid s t : Z)
         (found0 found : Notarisation) (root : uint256) (moms : list uint256)
         (dest : uint256),
    ScanNotarisationsFromHeight st s (GetCrossChainProof_isTarget targetSymbol) found0
      = Return (t, found) ->
    t <> 0 ->
    CalculateProofRoot' st targetSymbol targetCCid t [] uint256_null
      = Return (root, moms, dest) ->
    root <> uint256_null ->
    dest = fst found /\
    forall k notas nota,
      s <= k <= t -> notarisations_at st k = Some (Some notas) ->
      In nota notas -> eligible' targetSymbol targetCCid nota = true ->
      In (MoM (snd nota)) moms.
Proof. exact CalculateProofRoot_after_forward_scan. Qed.

(** *** GetCrossChainProof *)

Lemma ScanNotarisations_loop_no_throw st f n :
  forall h found0 msg, ScanNotarisations_loop st f n h found0 <> Throw msg.
Proof.
  induction n as [|n IH]; intros h found0 msg; cbn [ScanNotarisations_loop];
    [discriminate|].
  destruct (chain_at st h) as [p|]; [|discriminate].
  destruct (GetBlockNotarisations st (phashBlock p)) as [notas|]; [|apply IH].
  destruct (scan_block f notas found0) as [[] fnd]; [discriminate | apply IH].
Qed.

Lemma CalculateProofRoot_Return st sym targetCCid kmdHeight moms0 dest0 :
  exists r, CalculateProofRoot' st sym targetCCid kmdHeight moms0 dest0 = Return r.
Proof.
  destruct (Z_lt_le_dec targetCCid 2) as [Hc|Hc];
    [rewrite CalculateProofRoot_rejects by lia; eauto|].
  destruct (Z_lt_le_dec kmdHeight 0) as [Hl|Hl];
    [rewrite CalculateProofRoot_rejects by lia; eauto|].
  destruct (Z_lt_le_dec (chain_Height st) kmdHeight) as [Hg|Hg];
    [rewrite CalculateProofRoot_rejects by lia; eauto|].
  rewrite CalculateProofRoot_valid by lia.
  destruct (run' sym targetCCid (GetSymbolAuthority sym) (scan_window st kmdHeight)
              0 moms0 dest0); eauto.
Qed.

Lemma GetCrossChainProof_inv st txid targetSymbol targetCCid assetChainProof result :
  GetCrossChainProof' st txid targetSymbol targetCCid assetChainProof = Return result ->
  exists blockIdx t found MoMoM moms nIndex_,
    GetTxConfirmed st (fst assetChainProof) = Some blockIdx /\
    ScanNotarisationsFromHeight st (nHeight blockIdx)
      (GetCrossChainProof_isTarget targetSymbol) Notarisation_default
      = Return (t, found) /\
    t <> 0 /\
    CalculateProofRoot' st targetSymbol targetCCid t [] uint256_null
      = Return (MoMoM, moms, fst result) /\
    MoMoM <> uint256_null /\
    index_from (Exec Hash (snd assetChainProof) txid) moms 0 = Some nIndex_ /\
    snd result = MerkleBranch_append (snd assetChainProof)
                   (mkMerkleBranch nIndex_ (CBlock_GetMerkleBranch moms nIndex_)) /\
    Exec Hash (snd result) txid = MoMoM.
Proof.
  intros H. unfold GetCrossChainProof in H.
  destruct (GetTxConfirmed st (fst assetChainProof)) as [blockIdx|]; [|discriminate].
  cbv zeta in H. apply bind_Return in H as ([t found] & Hscan & H).
  cbn [fst snd] in H.
  destruct (Z.eqb_spec t 0) as [|Ht]; [discriminate|].
  apply bind_Return in H as ([[MoMoM moms] dest] & Hroot & H).
  unfold IsNull in H.
  destruct (Z.eqb_spec MoMoM 0) as [|Hnull]; [discriminate|].
  destruct (fopen_momom_on_kmd st); [|discriminate]. cbn [negb] in H.
  destruct (index_from _ moms 0) as [nIndex_|] eqn:Hidx; [|discriminate].
  match type of H with
  | (if negb (?a =? ?b) then _ else _) = _ =>
      destruct (Z.eqb_spec a b) as [Heq|Hne]; cbn [negb] in H; [|discriminate]
  end.
  injection H as <-.
  exists blockIdx, t, found, MoMoM, moms, nIndex_. cbn [fst snd].
  repeat split; assumption.
Qed.

(** X10. A proof returned by GetCrossChainProof extends the proof it was
    given: the siblings are those of the asset proof followed by the
    branch of the source MoM in the tree of the collected MoMs, the index
    is [(nIndex << len) | index] with [nIndex] the first position of the
    source MoM among the collected MoMs; and when the index of the asset
    proof fits in its siblings, that branch alone takes the source MoM to
    the MoMoM. *)
Theorem GetCrossChainProof_extends_proof :
  forall (st : NodeState) (txid : uint256) (targetSymbol : string)
         (targetCCid : Z) (assetChainProof result : TxProof),
    GetCrossChainProof' st txid targetSymbol targetCCid assetChainProof
      = Return result ->
    exists t MoMoM moms nIndex_,
      CalculateProofRoot' st targetSymbol targetCCid t [] uint256_null
        = Return (MoMoM, moms, fst result) /\
      0 <= nIndex_ < Z.of_nat (List.length moms) /\
      nth_error moms (Z.to_nat nIndex_)
        = Some (Exec Hash (snd assetChainProof) txid) /\
      (forall k, (k < Z.to_nat nIndex_)%nat ->
         nth_error moms k <> Some (Exec Hash (snd assetChainProof) txid)) /\
      branch (snd result) =
        branch (snd assetChainProof) ++ CBlock_GetMerkleBranch moms nIndex_ /\
      nIndex (snd result) =
        Z.lor (Z.shiftl nIndex_
                 (Z.of_nat (List.length (branch (snd assetChainProof)))))
              (nIndex (snd assetChainProof)) /\
      (0 <= nIndex (snd assetChainProof)
          < 2 ^ Z.of_nat (List.length (branch (snd assetChainProof))) ->
       CheckMerkleBranch Hash (Exec Hash (snd assetChainProof) txid)
         (CBlock_GetMerkleBranch moms nIndex_) nIndex_ = MoMoM).
Proof.
  intros st txid targetSymbol targetCCid assetChainProof result H.
  destruct (GetCrossChainProof_inv _ _ _ _ _ _ H)
    as (blockIdx & t & found & MoMoM & moms & nIndex_ & _ & _ & _ & Hroot & _
        & Hidx & Hres & Hexec).
  destruct (index_from_Some _ _ _ _ Hidx) as (Hr & Hnth & Hfirst).
  rewrite Z.sub_0_r in Hnth, Hfirst.
  exists t, MoMoM, moms, nIndex_. rewrite Hres. cbn [branch nIndex].
  repeat split; try assumption; try lia.
  intros Hfit. rewrite Hres in Hexec.
  rewrite <- (concatenate_branches_append _ _ Hfit) in Hexec.
  unfold Exec, concatenate_branches in Hexec. cbn [nIndex branch] in Hexec.
  rewrite (CheckMerkleBranch_app _ _ _ _ _ Hfit) in Hexec. exact Hexec.
Qed.

(** X11. The txid that GetCrossChainProof returns is the txid of the first
    notarisation of the target symbol at the lowest height, from the block
    of the source notarisation on and below the tip, whose record holds
    one. *)
Theorem GetCrossChainProof_returns_scanned_txid :
  forall (st : NodeState) (txid : uint256) (targetSymbol : string)
         (targetCCid : Z) (assetChainProof result : TxProof),
    GetCrossChainProof' st txid targetSymbol targetCCid assetChainProof
      = Return result ->
    exists blockIdx t notas found,
      GetTxConfirmed st (fst assetChainProof) = Some blockIdx /\
      nHeight blockIdx <= t < chain_Height st /\
      notarisations_at st t = Some (Some notas) /\
      first_own targetSymbol notas = Some found /\
      symbol (snd found) = targetSymbol /\
      fst result = fst found /\
      forall k ns, nHeight blockIdx <= k < t ->
                   notarisations_at st k = Some (Some ns) ->
                   has_own targetSymbol ns = false.
Proof.
  intros st txid targetSymbol targetCCid assetChainProof result H.
  destruct (GetCrossChainProof_inv _ _ _ _ _ _ H)
    as (blockIdx & t & found & MoMoM & moms & nIndex_ & Htx & Hscan & Ht & Hroot
        & Hnull & _).
  destruct (CalculateProofRoot_after_forward_scan _ _ _ _ _ _ _ _ _ _
              Hscan Ht Hroot Hnull) as [Hdest _].
  destruct (ScanNotarisationsFromHeight_hit _ _ _ _ _ _ Hscan Ht) as (Hr & _ & _).
  pose proof (scan_limit_le_tip st (nHeight blockIdx)) as Htip.
  unfold ScanNotarisationsFromHeight in Hscan. cbv zeta in Hscan.
  destruct (ScanNotarisations_loop_first _ _ _ _ _ _ _ Hscan Ht)
    as (_ & Hbefore & notas & Hat & Hfind).
  exists blockIdx, t, notas, found.
  split; [assumption|]. split; [lia|]. split; [assumption|].
  split; [exact Hfind|].
  split; [exact (proj2 (first_own_is_own _ _ _ Hfind))|].
  split; [assumption|].
  intros k ns Hk Hk_at. unfold has_own.
  destruct (existsb (is_own targetSymbol) ns) eqn:Hex; [|reflexivity].
  apply existsb_exists in Hex as (x & Hx & Hown).
  rewrite <- (Hbefore k ns x Hk Hk_at Hx). symmetry. exact Hown.
Qed.

(** X12. GetCrossChainProof throws "Couldn't find MoM within MoMoM set" only
    when no notarisation with the target's authority and ccId recorded in
    the block of the source notarisation has the root of the given proof
    as its MoM. *)
Theorem GetCrossChainProof_MoM_missing :
  forall (st : NodeState) (txid : uint256) (targetSymbol : string)
         (targetCCid : Z) (assetChainProof : TxProof),
    GetCrossChainProof' st txid targetSymbol targetCCid assetChainProof
      = Throw "Couldn't find MoM within MoMoM set" ->
    exists blockIdx,
      GetTxConfirmed st (fst assetChainProof) = Some blockIdx /\
      forall notas nota,
        notarisations_at st (nHeight blockIdx) = Some (Some notas) ->
        In nota notas -> eligible' targetSymbol targetCCid nota = true ->
        MoM (snd nota) <> Exec Hash (snd assetChainProof) txid.
Proof.
  intros st txid targetSymbol targetCCid assetChainProof H.
  unfold GetCrossChainProof in H.
  destruct (GetTxConfirmed st (fst assetChainProof)) as [blockIdx|]; [|discriminate].
  exists blockIdx. split; [reflexivity|]. cbv zeta in H.
  destruct (ScanNotarisationsFromHeight st (nHeight blockIdx)
              (GetCrossChainProof_isTarget targetSymbol) Notarisation_default)
    as [[t found] | msg | ] eqn:Hscan; cbn [bind fst snd] in H;
    [| exfalso; exact (ScanNotarisations_loop_no_throw _ _ _ _ _ _ Hscan)
     | discriminate].
  destruct (Z.eqb_spec t 0) as [|Ht]; [discriminate|].
  destruct (CalculateProofRoot_Return st targetSymbol targetCCid t [] uint256_null)
    as [[[MoMoM moms] dest] Hroot].
  rewrite Hroot in H. cbn [bind] in H. unfold IsNull in H.
  destruct (Z.eqb_spec MoMoM 0) as [|Hnull]; [discriminate|].
  destruct (fopen_momom_on_kmd st); [|discriminate]. cbn [negb] in H.
  destruct (index_from _ moms 0) as [nIndex_|] eqn:Hidx.
  - destruct (negb _); discriminate.
  - intros notas nota Hat Hin Hel Heq.
    apply (index_from_None _ _ _ Hidx). rewrite <- Heq.
    destruct (CalculateProofRoot_after_forward_scan _ _ _ _ _ _ _ _ _ _
                Hscan Ht Hroot Hnull) as [_ Hcollected].
    destruct (ScanNotarisationsFromHeight_hit _ _ _ _ _ _ Hscan Ht) as (Hr & _).
    apply (Hcollected (nHeight blockIdx) notas nota); [lia | assumption ..].
Qed.

(** X13. When the block index of the source notarisation has a height that
    is not negative, GetCrossChainProof dereferences no null block index and
    the only crash left is the one of lines 170-171: on a node where
    /home/cc/momom_on_kmd can be opened the call returns or throws one of
    its five errors; where it cannot be opened the call never returns: it
    throws one of the three errors raised before line 170 or crashes on
    the null stream. *)
Theorem GetCrossChainProof_crashes_only_on_fopen :
  forall (st : NodeState) (txid : uint256) (targetSymbol : string)
         (targetCCid : Z) (assetChainProof : TxProof),
    (forall blockIdx, GetTxConfirmed st (fst assetChainProof) = Some blockIdx ->
                      0 <= nHeight blockIdx) ->
    (fopen_momom_on_kmd st = true ->
     match GetCrossChainProof' st txid targetSymbol targetCCid assetChainProof with
     | Return _ => True
     | Throw msg =>
         In msg ["Notarisation not found";
                 "Cannot find notarisation for target inclusive of source";
                 "No MoMs found";
                 "Couldn't find MoM within MoMoM set";
                 "Proof check failed"]%string
     | Crash => False
     end) /\
    (fopen_momom_on_kmd st = false ->
     match GetCrossChainProof' st txid targetSymbol targetCCid assetChainProof with
     | Return _ => False
     | Throw msg =>
         In msg ["Notarisation not found";
                 "Cannot find notarisation for target inclusive of source";
                 "No MoMs found"]%string
     | Crash => True
     end).
Proof.
  intros st txid targetSymbol targetCCid assetChainProof Hpos.
  unfold GetCrossChainProof.
  destruct (GetTxConfirmed st (fst assetChainProof)) as [blockIdx|];
    [|split; intros _; cbn; auto 10].
  cbv zeta.
  destruct (ScanNotarisations_loop_returns st
              (GetCrossChainProof_isTarget targetSymbol)
              (Z.to_nat (scan_limit st (nHeight blockIdx) - nHeight blockIdx))
              (nHeight blockIdx) Notarisation_default (Hpos _ eq_refl))
    as (t & found & Hscan).
  { pose proof (scan_limit_le_tip st (nHeight blockIdx)). intros j Hj. lia. }
  unfold ScanNotarisationsFromHeight. cbv zeta. rewrite Hscan. cbn [bind fst snd].
  destruct (t =? 0); [split; intros _; cbn; auto 10|].
  destruct (CalculateProofRoot_Return st targetSymbol targetCCid t [] uint256_null)
    as [[[MoMoM moms] dest] ->].
  cbn [bind]. destruct (IsNull MoMoM); [split; intros _; cbn; auto 10|].
  split; intros ->; cbn [negb]; [|exact I].
  destruct (index_from _ moms 0); [|cbn; auto 10].
  destruct (negb _); cbn; auto 10.
Qed.

(** *** GetAssetchainProof *)

Lemma GetAssetchainProof_inv st hash result :
  GetAssetchainProof' st hash = Return result ->
  exists blockIndex nota branch_ block nTxIndex,
    select_notarisation st hash = Return (blockIndex, nota) /\
    block_to_MoM' st blockIndex nota (height (snd nota) - nHeight blockIndex)
      = Return branch_ /\
    ReadBlockFromDisk st blockIndex = Some block /\
    index_from hash (vtx block) 0 = Some nTxIndex /\
    block_hashMerkleRoot block =
      CheckMerkleBranch Hash hash (CBlock_GetMerkleBranch (vtx block) nTxIndex)
                        nTxIndex /\
    result =
      (txHash (snd nota),
       concatenate_branches
         (mkMerkleBranch nTxIndex (CBlock_GetMerkleBranch (vtx block) nTxIndex))
         (mkMerkleBranch (height (snd nota) - nHeight blockIndex) branch_)).
Proof.
  intros H. unfold GetAssetchainProof in H.
  apply bind_Return in H as ([blockIndex nota] & Hsel & H).
  apply bind_Return in H as (branch_ & Hbranch & H).
  destruct (fHavePruned st && _ && _); [discriminate|].
  destruct (ReadBlockFromDisk st blockIndex) as [block|] eqn:Hread; [|discriminate].
  destruct (index_from hash (vtx block) 0) as [nTxIndex|] eqn:Hidx; [|discriminate].
  cbv zeta in H.
  match type of H with
  | (if negb (?a =? ?b) then _ else _) = _ =>
      destruct (Z.eqb_spec a b) as [Htx|]; cbn [negb] in H; [|discriminate]
  end.
  destruct (negb _); [discriminate|]. injection H as <-.
  exists blockIndex, nota, branch_, block, nTxIndex. repeat split; assumption.
Qed.

(** X14. A proof returned by GetAssetchainProof is the branch of the
    transaction in its block followed by the branch of the block in the MoM
    tree: the transaction index is the first position of the hash among the
    block's transactions, the block read from disk has passed the check of
    its Merkle root, and the index is
    [(nota.height - block height) * 2^len(txBranch) + nTxIndex]. *)
Theorem GetAssetchainProof_result_structure :
  forall (st : NodeState) (hash : uint256) (result : TxProof),
    GetAssetchainProof' st hash = Return result ->
    exists blockIndex nota branch_ block nTxIndex,
      select_notarisation st hash = Return (blockIndex, nota) /\
      block_to_MoM' st blockIndex nota (height (snd nota) - nHeight blockIndex)
        = Return branch_ /\
      ReadBlockFromDisk st blockIndex = Some block /\
      0 <= nTxIndex < Z.of_nat (List.length (vtx block)) /\
      nth_error (vtx block) (Z.to_nat nTxIndex) = Some hash /\
      (forall k, (k < Z.to_nat nTxIndex)%nat -> nth_error (vtx block) k <> Some hash) /\
      block_hashMerkleRoot block =
        CheckMerkleBranch Hash hash (CBlock_GetMerkleBranch (vtx block) nTxIndex)
                          nTxIndex /\
      branch (snd result) = CBlock_GetMerkleBranch (vtx block) nTxIndex ++ branch_ /\
      nIndex (snd result) =
        (height (snd nota) - nHeight blockIndex)
        * 2 ^ Z.of_nat (List.length (CBlock_GetMerkleBranch (vtx block) nTxIndex))
        + nTxIndex.
Proof.
  intros st hash result H.
  destruct (GetAssetchainProof_inv _ _ _ H)
    as (blockIndex & nota & branch_ & block & nTxIndex & Hsel & Hbranch & Hread
        & Hidx & Htx & ->).
  destruct (index_from_Some _ _ _ _ Hidx) as (Hr & Hnth & Hfirst).
  rewrite Z.sub_0_r in Hnth, Hfirst.
  exists blockIndex, nota, branch_, block, nTxIndex.
  cbn [snd concatenate_branches branch nIndex].
  repeat split; try assumption; try lia.
  now rewrite Z.shiftl_mul_pow2 by lia.
Qed.

(** X15. The notarisation behind a proof returned by GetAssetchainProof is
    the first notarisation of the own symbol pinning a height not below the
    transaction's block, in the record of the lowest height from that block
    on that holds one; this height is below the tip, so that the
    transaction's block is below the tip too. *)
Theorem GetAssetchainProof_selects_first_notarisation :
  forall (st : NodeState) (hash : uint256) (result : TxProof),
    GetAssetchainProof' st hash = Return result ->
    exists blockIndex nota h notas,
      select_notarisation st hash = Return (blockIndex, nota) /\
      fst result = txHash (snd nota) /\
      nHeight blockIndex <= h < chain_Height st /\
      notarisations_at st h = Some (Some notas) /\
      find (GetAssetchainProof_isTarget st blockIndex) notas = Some nota /\
      forall k ns n, nHeight blockIndex <= k < h ->
                     notarisations_at st k = Some (Some ns) -> In n ns ->
                     GetAssetchainProof_isTarget st blockIndex n = false.
Proof.
  intros st hash result H.
  destruct (GetAssetchainProof_inv _ _ _ H)
    as (blockIndex & nota & branch_ & block & nTxIndex & Hsel & _ & _ & _ & _ & ->).
  destruct (select_notarisation_inv _ _ _ _ Hsel)
    as (blockHash & h & _ & _ & _ & Hscan & Hh & _ & _).
  destruct (ScanNotarisationsFromHeight_hit _ _ _ _ _ _ Hscan Hh) as (Hr & _ & _).
  pose proof (scan_limit_le_tip st (nHeight blockIndex)) as Htip.
  unfold ScanNotarisationsFromHeight in Hscan. cbv zeta in Hscan.
  destruct (ScanNotarisations_loop_first _ _ _ _ _ _ _ Hscan Hh)
    as (_ & Hbefore & notas & Hat & Hfind).
  exists blockIndex, nota, h, notas.
  split; [assumption|]. split; [reflexivity|]. split; [lia|].
  split; [assumption|]. split; assumption.
Qed.

(** X16. A transaction whose block is the tip of the active chain (or is
    not below it) cannot be proved: the forward scan has an empty range and
    GetAssetchainProof throws "backnotarisation not yet confirmed". *)
Theorem GetAssetchainProof_tip_block_unprovable :
  forall (st : NodeState) (hash blockHash : uint256) (blockIndex : CBlockIndex),
    GetTransaction st hash = Some blockHash -> IsNull blockHash = false ->
    mapBlockIndex st blockHash = Some blockIndex ->
    chain_Height st <= nHeight blockIndex ->
    GetAssetchainProof' st hash = Throw "backnotarisation not yet confirmed".
Proof.
  intros st hash blockHash blockIndex Htx Hnull Hidx Htip.
  unfold GetAssetchainProof, select_notarisation. rewrite Htx, Hnull, Hidx.
  cbv zeta. unfold ScanNotarisationsFromHeight. cbv zeta.
  replace (Z.to_nat (scan_limit st (nHeight blockIndex) - nHeight blockIndex))
    with 0%nat by (unfold scan_limit; lia).
  reflexivity.
Qed.

(** X17. The last comparison of GetAssetchainProof (line 347) cannot fail
    once the two earlier ones have passed, provided the block read from disk
    carries the Merkle root of its index entry, [SafeCheckMerkleBranch] did
    not take its input for malformed and the transaction index fits in the
    transaction branch: the call then returns the composed proof. *)
Theorem GetAssetchainProof_final_check_passes :
  forall (st : NodeState) (hash : uint256) (blockIndex : CBlockIndex)
         (nota : Notarisation) (branch_ : list uint256) (block : CBlock)
         (nTxIndex : Z),
    let nIndex_ := height (snd nota) - nHeight blockIndex in
    let txBranch := CBlock_GetMerkleBranch (vtx block) nTxIndex in
    select_notarisation st hash = Return (blockIndex, nota) ->
    block_to_MoM' st blockIndex nota nIndex_ = Return branch_ ->
    fHavePruned st && (Z.land (nStatus blockIndex) BLOCK_HAVE_DATA =? 0)
      && (nTx blockIndex >? 0) = false ->
    ReadBlockFromDisk st blockIndex = Some block ->
    index_from hash (vtx block) 0 = Some nTxIndex ->
    block_hashMerkleRoot block = CheckMerkleBranch Hash hash txBranch nTxIndex ->
    block_hashMerkleRoot block = hashMerkleRoot blockIndex ->
    malformed (hashMerkleRoot blockIndex) branch_ nIndex_ = false ->
    nTxIndex < 2 ^ Z.of_nat (List.length txBranch) ->
    GetAssetchainProof' st hash =
    Return (txHash (snd nota),
            concatenate_branches (mkMerkleBranch nTxIndex txBranch)
                                 (mkMerkleBranch nIndex_ branch_)).
Proof.
  intros st hash blockIndex nota branch_ block nTxIndex nIndex_ txBranch
         Hsel Hbranch Hpruned Hread Hidx Htx Hroot Hmal Hfit.
  assert (HMoM : MoM (snd nota) =
                 CheckMerkleBranch Hash (hashMerkleRoot blockIndex) branch_ nIndex_).
  { unfold block_to_MoM in Hbranch.
    apply bind_Return in Hbranch as (leaves & _ & Hbranch). cbv zeta in Hbranch.
    match type of Hbranch with
    | (if negb (?a =? ?b) then _ else _) = _ =>
        destruct (Z.eqb_spec a b) as [Heq|]; cbn [negb] in Hbranch; [|discriminate]
    end.
    injection Hbranch as Hb. rewrite Hb in Heq.
    unfold SafeCheckMerkleBranch in Heq. now rewrite Hmal in Heq. }
  destruct (index_from_Some _ _ _ _ Hidx) as (Hr & _ & _).
  unfold GetAssetchainProof. rewrite Hsel. cbn [bind]. cbv zeta.
  fold nIndex_. rewrite Hbranch. cbn [bind]. rewrite Hpruned, Hread, Hidx.
  fold txBranch. rewrite <- Htx, Z.eqb_refl. cbn [negb].
  unfold concatenate_branches. cbn [nIndex branch].
  rewrite CheckMerkleBranch_app by lia.
  rewrite <- Htx, Hroot, <- HMoM, Z.eqb_refl. reflexivity.
Qed.

(** *** GetNextBacknotarisation *)

(** X18. When GetNextBacknotarisation returns true, [out] holds the first
    notarisation of the own symbol in the record of the lowest height,
    strictly above the block of the backnotarisation named by the given
    txid and below the tip, that holds one. *)
Theorem GetNextBacknotarisation_next :
  forall (st : NodeState) (kmdNotarisationTxid : uint256) (out out' : Notarisation),
    GetNextBacknotarisation st kmdNotarisationTxid out = Return (true, out') ->
    exists bn block h notas,
      GetBackNotarisation st kmdNotarisationTxid = Some bn /\
      GetTxConfirmed st (fst bn) = Some block /\
      nHeight block < h < chain_Height st /\
      notarisations_at st h = Some (Some notas) /\
      find (IsSameAssetChain st) notas = Some out' /\
      symbol (snd out') = ASSETCHAINS_SYMBOL st /\
      forall k ns n, nHeight block < k < h ->
                     notarisations_at st k = Some (Some ns) -> In n ns ->
                     IsSameAssetChain st n = false.
Proof.
  intros st kmdNotarisationTxid out out' H. unfold GetNextBacknotarisation in H.
  destruct (GetBackNotarisation st kmdNotarisationTxid) as [bn|]; [|discriminate].
  destruct (GetTxConfirmed st (fst bn)) as [block|] eqn:Hblock; [|discriminate].
  apply bind_Return in H as ([h found] & Hscan & H). cbn [fst snd] in H.
  destruct (Z.eqb_spec h 0) as [|Hh]; [discriminate|]. injection H as <-.
  destruct (ScanNotarisationsFromHeight_hit _ _ _ _ _ _ Hscan Hh) as (Hr & _ & _).
  pose proof (scan_limit_le_tip st (nHeight block + 1)) as Htip.
  unfold ScanNotarisationsFromHeight in Hscan. cbv zeta in Hscan.
  destruct (ScanNotarisations_loop_first _ _ _ _ _ _ _ Hscan Hh)
    as (_ & Hbefore & notas & Hat & Hfind).
  exists bn, block, h, notas.
  split; [reflexivity|]. split; [assumption|]. split; [lia|].
  split; [assumption|]. split; [assumption|]. split.
  - apply find_some in Hfind as [_ Hown]. now apply String.eqb_eq.
  - intros k ns n Hk. apply Hbefore. lia.
Qed.

(** X19. When the block of the backnotarisation has a height that is not
    negative, GetNextBacknotarisation never dereferences a null block
    index; and when it returns false, [out] is as it was passed or has been
    overwritten with a notarisation of another symbol. *)
Theorem GetNextBacknotarisation_failure_out :
  forall (st : NodeState) (kmdNotarisationTxid : uint256) (out : Notarisation),
    (forall bn block,
        GetBackNotarisation st kmdNotarisationTxid = Some bn ->
        GetTxConfirmed st (fst bn) = Some block -> 0 <= nHeight block) ->
    exists flag out',
      GetNextBacknotarisation st kmdNotarisationTxid out = Return (flag, out') /\
      (flag = false -> out' = out \/ IsSameAssetChain st out' = false).
Proof.
  intros st kmdNotarisationTxid out Hpos. unfold GetNextBacknotarisation.
  destruct (GetBackNotarisation st kmdNotarisationTxid) as [bn|];
    [|exists false, out; split; [reflexivity | now left]].
  destruct (GetTxConfirmed st (fst bn)) as [block|] eqn:Htx;
    [|exists false, out; split; [reflexivity | now left]].
  specialize (Hpos bn block eq_refl Htx).
  pose proof (scan_limit_le_tip st (nHeight block + 1)) as Htip.
  destruct (ScanNotarisations_loop_returns st (IsSameAssetChain st)
              (Z.to_nat (scan_limit st (nHeight block + 1) - (nHeight block + 1)))
              (nHeight block + 1) out ltac:(lia)) as (h & found & Hscan);
    [intros j Hj; lia|].
  unfold ScanNotarisationsFromHeight. cbv zeta. rewrite Hscan. cbn [bind fst snd].
  exists (negb (h =? 0)), found. split; [reflexivity|].
  destruct (Z.eqb_spec h 0) as [->|]; [|discriminate]. intros _.
  destruct (ScanNotarisations_loop_zero_found st (IsSameAssetChain st) _
              (nHeight block + 1) out found ltac:(lia) Hscan)
    as [-> | [Hf _]]; [now left | now right].
Qed.

(** *** CompleteImportTransaction *)

Variable CTransaction : Type.
Variable CTxOut : Type.
Variable GetHash : CTransaction -> uint256.
Variable UnmarshalImportTx :
  CTransaction -> option (TxProof * CTransaction * list CTxOut).
Variable UnmarshalBurnTx : CTransaction -> option (string * Z * uint256).
Variable MakeImportCoinTransaction :
  TxProof -> CTransaction -> list CTxOut -> CTransaction.

Local Abbreviation CompleteImportTransaction' :=
  (CompleteImportTransaction Hash GetSymbolAuthority GetMerkleRoot
     CBlock_GetMerkleBranch CTransaction CTxOut GetHash UnmarshalImportTx
     UnmarshalBurnTx MakeImportCoinTransaction).

(** X20. When CompleteImportTransaction returns, the new import transaction
    is made of the burn transaction and the payouts of the old one,
    unchanged, and of a proof that extends the old one and whose [Exec] on
    the hash of the burn transaction is the non-null MoMoM computed for the
    symbol and ccId that the burn transaction names; with codecs that
    unmarshal what they have made, it parses back to exactly these. *)
Theorem CompleteImportTransaction_completes :
  forall (st : NodeState) (importTx importTx' : CTransaction),
    CompleteImportTransaction' st importTx = Return importTx' ->
    exists proof burnTx payouts targetSymbol targetCCid payoutsHash proof'
           t MoMoM moms,
      UnmarshalImportTx importTx = Some (proof, burnTx, payouts) /\
      UnmarshalBurnTx burnTx = Some (targetSymbol, targetCCid, payoutsHash) /\
      importTx' = MakeImportCoinTransaction proof' burnTx payouts /\
      CalculateProofRoot' st targetSymbol targetCCid t [] uint256_null
        = Return (MoMoM, moms, fst proof') /\
      MoMoM <> uint256_null /\
      Exec Hash (snd proof') (GetHash burnTx) = MoMoM /\
      (exists tail, branch (snd proof') = branch (snd proof) ++ tail) /\
      ((forall p b o, UnmarshalImportTx (MakeImportCoinTransaction p b o)
                      = Some (p, b, o)) ->
       UnmarshalImportTx importTx' = Some (proof', burnTx, payouts)).
Proof.
  intros st importTx importTx' H. unfold CompleteImportTransaction in H.
  destruct (UnmarshalImportTx importTx) as [[[proof burnTx] payouts]|];
    [|discriminate].
  destruct (UnmarshalBurnTx burnTx) as [[[targetSymbol targetCCid] payoutsHash]|]
    eqn:Hburn; [|discriminate].
  apply bind_Return in H as (proof' & Hproof & H). injection H as <-.
  destruct (GetCrossChainProof_inv _ _ _ _ _ _ Hproof)
    as (blockIdx & t & found & MoMoM & moms & nIndex_ & _ & _ & _ & Hroot & Hnull
        & _ & Hres & Hexec).
  exists proof, burnTx, payouts, targetSymbol, targetCCid, payoutsHash, proof',
    t, MoMoM, moms.
  split; [reflexivity|]. split; [assumption|]. split; [reflexivity|].
  split; [assumption|]. split; [assumption|]. split; [assumption|]. split.
  - rewrite Hres. cbn [branch]. eexists. reflexivity.
  - intros Hcodec. apply Hcodec.
Qed.

End FurtherProofs.

(** ** The further properties at work *)

Import MoreScenario ImportScenario.

Lemma ScanNotarisationsFromHeight_first_match_witness :
  ScanNotarisationsFromHeight hub 2 isB Notarisation_default = Return (3, nB1) /\
  (forall k notas nota,
      2 <= k < 3 -> notarisations_at hub k = Some (Some notas) ->
      In nota notas -> isB nota = false) /\
  exists notas,
    notarisations_at hub 3 = Some (Some notas) /\ find isB notas = Some nB1.
Proof.
  assert (H : ScanNotarisationsFromHeight hub 2 isB Notarisation_default
              = Return (3, nB1)) by (vm_compute; reflexivity).
  split; [exact H|].
  apply (ScanNotarisationsFromHeight_first_match hub 2 isB Notarisation_default
           nB1 3 H).
  discriminate.
Defined.

Lemma ScanNotarisationsFromHeight_finds_witness :
  exists h found,
    ScanNotarisationsFromHeight hub 2 isB Notarisation_default = Return (h, found) /\
    h <> 0 /\ 2 <= h <= 3 /\ isB found = true.
Proof.
  apply (ScanNotarisationsFromHeight_finds hub 2 isB Notarisation_default 3 [nB1]).
  - lia.
  - change (scan_limit hub 2) with 5. lia.
  - vm_compute; reflexivity.
  - vm_compute; reflexivity.
Defined.

Lemma ScanNotarisationsFromHeight_returns_witness :
  exists h found,
    ScanNotarisationsFromHeight hub_tip_only 2 isB Notarisation_default
      = Return (h, found) /\
    (h = 0 \/ 2 <= h < scan_limit hub_tip_only 2).
Proof.
  apply (ScanNotarisationsFromHeight_returns hub_tip_only 2 isB Notarisation_default).
  lia.
Defined.

Lemma CalculateProofRoot_reads_window_only_witness :
  CalculateProofRoot one_authority GetMerkleRoot hub_tip_only "B" 3 2 [] 0 =
  CalculateProofRoot one_authority GetMerkleRoot hub_twice "B" 3 2 [] 0.
Proof.
  apply (CalculateProofRoot_reads_window_only one_authority GetMerkleRoot
           hub_twice hub_tip_only "B" 3 2 [] 0).
  - reflexivity.
  - intros k Hk Hr.
    assert (Hcases : k = 0 \/ k = 1 \/ k = 2)
      by (unfold NOTARISATION_SCAN_LIMIT_BLOCKS in Hr; lia).
    destruct Hcases as [-> | [-> | ->]]; vm_compute; reflexivity.
Defined.

Lemma CalculateProofRoot_two_own_blocks_succeed_witness :
  exists moms notas n1,
    CalculateProofRoot one_authority GetMerkleRoot hub "B" 3 3 [] 0
      = Return (GetMerkleRoot moms, moms, fst n1) /\
    In notas (scan_window hub 3) /\ first_own "B" notas = Some n1.
Proof.
  apply (CalculateProofRoot_two_own_blocks_succeed one_authority GetMerkleRoot
           hub "B" 3 3 [] 0).
  - lia.
  - change (chain_Height hub) with 5. lia.
  - vm_compute. lia.
Defined.

Lemma CalculateProofRoot_dest_MoM_collected_witness :
  exists notas n1,
    In notas (scan_window hub 3) /\ first_own "B" notas = Some n1 /\
    9003 = fst n1 /\
    (ccId (snd n1) = 3 -> In (MoM (snd n1)) [73; A_MoM]).
Proof.
  apply (CalculateProofRoot_dest_MoM_collected one_authority GetMerkleRoot
           hub "B" 3 3 [] 0 58409222363046207 [73; A_MoM] 9003).
  - vm_compute; reflexivity.
  - discriminate.
Defined.

Lemma Exec_composed_branch_witness :
  Exec toy_hash (concatenate_branches tx_half block_half) 170
    = Exec toy_hash block_half (Exec toy_hash tx_half 170) /\
  Exec toy_hash (MerkleBranch_append tx_half block_half) 170
    = Exec toy_hash block_half (Exec toy_hash tx_half 170).
Proof.
  apply (Exec_composed_branch toy_hash tx_half block_half 170).
  cbn. lia.
Defined.

Lemma CalculateProofRoot_brackets_forward_scan_witness :
  9003 = fst nB1 /\
  forall k notas nota,
    2 <= k <= 3 -> notarisations_at hub k = Some (Some notas) ->
    In nota notas -> eligible one_authority "B" 3 nota = true ->
    In (MoM (snd nota)) [73; A_MoM].
Proof.
  apply (CalculateProofRoot_brackets_forward_scan one_authority GetMerkleRoot
           hub "B" 3 2 3 Notarisation_default nB1 58409222363046207
           [73; A_MoM] 9003).
  - vm_compute; reflexivity.
  - discriminate.
  - vm_compute; reflexivity.
  - discriminate.
Defined.

Lemma GetCrossChainProof_extends_proof_witness :
  exists t MoMoM moms nIndex_,
    CalculateProofRoot one_authority GetMerkleRoot hub "B" 3 t [] uint256_null
      = Return (MoMoM, moms, fst proofB) /\
    0 <= nIndex_ < Z.of_nat (List.length moms) /\
    nth_error moms (Z.to_nat nIndex_) = Some (Exec toy_hash (snd proofA) 170) /\
    (forall k, (k < Z.to_nat nIndex_)%nat ->
       nth_error moms k <> Some (Exec toy_hash (snd proofA) 170)) /\
    branch (snd proofB) =
      branch (snd proofA) ++ CBlock_GetMerkleBranch moms nIndex_ /\
    nIndex (snd proofB) =
      Z.lor (Z.shiftl nIndex_ (Z.of_nat (List.length (branch (snd proofA)))))
            (nIndex (snd proofA)) /\
    (0 <= nIndex (snd proofA)
        < 2 ^ Z.of_nat (List.length (branch (snd proofA))) ->
     CheckMerkleBranch toy_hash (Exec toy_hash (snd proofA) 170)
       (CBlock_GetMerkleBranch moms nIndex_) nIndex_ = MoMoM).
Proof.
  apply (GetCrossChainProof_extends_proof toy_hash one_authority GetMerkleRoot
           CBlock_GetMerkleBranch hub 170 "B" 3 proofA proofB).
  vm_compute; reflexivity.
Defined.

Lemma GetCrossChainProof_returns_scanned_txid_witness :
  exists blockIdx t notas found,
    GetTxConfirmed hub (fst proofA) = Some blockIdx /\
    nHeight blockIdx <= t < chain_Height hub /\
    notarisations_at hub t = Some (Some notas) /\
    first_own "B" notas = Some found /\
    symbol (snd found) = "B"%string /\
    fst proofB = fst found /\
    forall k ns, nHeight blockIdx <= k < t ->
                 notarisations_at hub k = Some (Some ns) ->
                 has_own "B" ns = false.
Proof.
  apply (GetCrossChainProof_returns_scanned_txid toy_hash one_authority
           GetMerkleRoot CBlock_GetMerkleBranch hub 170 "B" 3 proofA proofB).
  vm_compute; reflexivity.
Defined.

Lemma GetCrossChainProof_MoM_missing_witness :
  exists blockIdx,
    GetTxConfirmed hub (fst proof_stale) = Some blockIdx /\
    forall notas nota,
      notarisations_at hub (nHeight blockIdx) = Some (Some notas) ->
      In nota notas -> eligible one_authority "B" 3 nota = true ->
      MoM (snd nota) <> Exec toy_hash (snd proof_stale) 12345.
Proof.
  apply (GetCrossChainProof_MoM_missing toy_hash one_authority GetMerkleRoot
           CBlock_GetMerkleBranch hub 12345 "B" 3 proof_stale).
  vm_compute; reflexivity.
Defined.

Lemma GetCrossChainProof_crashes_only_on_fopen_witness :
  GetCrossChainProof toy_hash one_authority GetMerkleRoot CBlock_GetMerkleBranch
    hub 170 "B" 3 proofA = Return proofB /\
  GetCrossChainProof toy_hash one_authority GetMerkleRoot CBlock_GetMerkleBranch
    hub_no_file 170 "B" 3 proofA = Crash /\
  (fopen_momom_on_kmd hub_no_file = false ->
   match GetCrossChainProof toy_hash one_authority GetMerkleRoot
           CBlock_GetMerkleBranch hub_no_file 170 "B" 3 proofA with
   | Return _ => False
   | Throw msg =>
       In msg ["Notarisation not found";
               "Cannot find notarisation for target inclusive of source";
               "No MoMs found"]%string
   | Crash => True
   end).
Proof.
  split; [vm_compute; reflexivity|]. split; [vm_compute; reflexivity|].
  apply (GetCrossChainProof_crashes_only_on_fopen toy_hash one_authority
           GetMerkleRoot CBlock_GetMerkleBranch hub_no_file 170 "B" 3 proofA).
  intros blockIdx H. vm_compute in H. injection H as <-. cbn. lia.
Defined.

Lemma GetAssetchainProof_result_structure_witness :
  exists blockIndex nota branch_ block nTxIndex,
    select_notarisation assetchain 170 = Return (blockIndex, nota) /\
    block_to_MoM toy_hash never_malformed BuildMerkleTree GetMerkleBranch
      assetchain blockIndex nota (height (snd nota) - nHeight blockIndex)
      = Return branch_ /\
    ReadBlockFromDisk assetchain blockIndex = Some block /\
    0 <= nTxIndex < Z.of_nat (List.length (vtx block)) /\
    nth_error (vtx block) (Z.to_nat nTxIndex) = Some 170 /\
    (forall k, (k < Z.to_nat nTxIndex)%nat -> nth_error (vtx block) k <> Some 170) /\
    block_hashMerkleRoot block =
      CheckMerkleBranch toy_hash 170 (CBlock_GetMerkleBranch (vtx block) nTxIndex)
                        nTxIndex /\
    branch (snd proofA) = CBlock_GetMerkleBranch (vtx block) nTxIndex ++ branch_ /\
    nIndex (snd proofA) =
      (height (snd nota) - nHeight blockIndex)
      * 2 ^ Z.of_nat (List.length (CBlock_GetMerkleBranch (vtx block) nTxIndex))
      + nTxIndex.
Proof.
  apply (GetAssetchainProof_result_structure toy_hash never_malformed
           BuildMerkleTree GetMerkleBranch CBlock_GetMerkleBranch HAVE_DATA
           assetchain 170 proofA).
  vm_compute; reflexivity.
Defined.

Lemma GetAssetchainProof_selects_first_notarisation_witness :
  exists blockIndex nota h notas,
    select_notarisation assetchain 170 = Return (blockIndex, nota) /\
    fst proofA = txHash (snd nota) /\
    nHeight blockIndex <= h < chain_Height assetchain /\
    notarisations_at assetchain h = Some (Some notas) /\
    find (GetAssetchainProof_isTarget assetchain blockIndex) notas = Some nota /\
    forall k ns n, nHeight blockIndex <= k < h ->
                   notarisations_at assetchain k = Some (Some ns) -> In n ns ->
                   GetAssetchainProof_isTarget assetchain blockIndex n = false.
Proof.
  apply (GetAssetchainProof_selects_first_notarisation toy_hash never_malformed
           BuildMerkleTree GetMerkleBranch CBlock_GetMerkleBranch HAVE_DATA
           assetchain 170 proofA).
  vm_compute; reflexivity.
Defined.

Lemma GetAssetchainProof_tip_block_unprovable_witness :
  GetAssetchainProof toy_hash never_malformed BuildMerkleTree GetMerkleBranch
    CBlock_GetMerkleBranch HAVE_DATA assetchain_tip 170
  = Throw "backnotarisation not yet confirmed".
Proof.
  apply (GetAssetchainProof_tip_block_unprovable toy_hash never_malformed
           BuildMerkleTree GetMerkleBranch CBlock_GetMerkleBranch HAVE_DATA
           assetchain_tip 170 1001 (A_index 1)).
  - vm_compute; reflexivity.
  - vm_compute; reflexivity.
  - vm_compute; reflexivity.
  - change (chain_Height assetchain_tip) with 1. cbn. lia.
Defined.

Lemma GetAssetchainProof_final_check_passes_witness :
  GetAssetchainProof toy_hash never_malformed BuildMerkleTree GetMerkleBranch
    CBlock_GetMerkleBranch HAVE_DATA assetchain 170
  = Return (txHash (snd bnA0),
            concatenate_branches
              (mkMerkleBranch 1 (CBlock_GetMerkleBranch block1_vtx 1))
              (mkMerkleBranch (height (snd bnA0) - nHeight (A_index 1))
                              [502; 504005044])).
Proof.
  apply (GetAssetchainProof_final_check_passes toy_hash never_malformed
           BuildMerkleTree GetMerkleBranch CBlock_GetMerkleBranch HAVE_DATA
           assetchain 170 (A_index 1) bnA0 [502; 504005044]
           (mkCBlock block1_vtx (A_merkle_root 1)) 1).
  - vm_compute; reflexivity.
  - vm_compute; reflexivity.
  - vm_compute; reflexivity.
  - vm_compute; reflexivity.
  - vm_compute; reflexivity.
  - vm_compute; reflexivity.
  - vm_compute; reflexivity.
  - vm_compute; reflexivity.
  - vm_compute; reflexivity.
Defined.

Lemma GetNextBacknotarisation_next_witness :
  GetNextBacknotarisation assetchain_next 9002 Notarisation_default
    = Return (true, bnA1) /\
  exists bn block h notas,
    GetBackNotarisation assetchain_next 9002 = Some bn /\
    GetTxConfirmed assetchain_next (fst bn) = Some block /\
    nHeight block < h < chain_Height assetchain_next /\
    notarisations_at assetchain_next h = Some (Some notas) /\
    find (IsSameAssetChain assetchain_next) notas = Some bnA1 /\
    symbol (snd bnA1) = ASSETCHAINS_SYMBOL assetchain_next /\
    forall k ns n, nHeight block < k < h ->
                   notarisations_at assetchain_next k = Some (Some ns) -> In n ns ->
                   IsSameAssetChain assetchain_next n = false.
Proof.
  assert (H : GetNextBacknotarisation assetchain_next 9002 Notarisation_default
              = Return (true, bnA1)) by (vm_compute; reflexivity).
  split; [exact H|].
  exact (GetNextBacknotarisation_next assetchain_next 9002 Notarisation_default
           bnA1 H).
Defined.

(** On the chain without a later notarisation of A the call returns false
    and leaves in [out] the notarisation of C that it met last. *)
Lemma GetNextBacknotarisation_failure_out_witness :
  GetNextBacknotarisation assetchain_foreign 9002 Notarisation_default
    = Return (false, bnC) /\
  exists flag out',
    GetNextBacknotarisation assetchain_foreign 9002 Notarisation_default
      = Return (flag, out') /\
    (flag = false ->
     out' = Notarisation_default \/ IsSameAssetChain assetchain_foreign out' = false).
Proof.
  split; [vm_compute; reflexivity|].
  apply (GetNextBacknotarisation_failure_out assetchain_foreign 9002
           Notarisation_default).
  intros bn block Hbn Hblock. vm_compute in Hbn. injection Hbn as <-.
  vm_compute in Hblock. injection Hblock as <-. cbn. lia.
Defined.

Lemma CompleteImportTransaction_completes_witness :
  CompleteImportTransaction toy_hash one_authority GetMerkleRoot
    CBlock_GetMerkleBranch toy_tx Z toy_GetHash toy_UnmarshalImportTx
    toy_UnmarshalBurnTx Import hub import170
    = Return (Import proofB burn170 [10; 20]) /\
  exists proof burnTx payouts targetSymbol targetCCid payoutsHash proof'
         t MoMoM moms,
    toy_UnmarshalImportTx import170 = Some (proof, burnTx, payouts) /\
    toy_UnmarshalBurnTx burnTx = Some (targetSymbol, targetCCid, payoutsHash) /\
    Import proofB burn170 [10; 20] = Import proof' burnTx payouts /\
    CalculateProofRoot one_authority GetMerkleRoot hub targetSymbol targetCCid t
      [] uint256_null = Return (MoMoM, moms, fst proof') /\
    MoMoM <> uint256_null /\
    Exec toy_hash (snd proof') (toy_GetHash burnTx) = MoMoM /\
    (exists tail, branch (snd proof') = branch (snd proof) ++ tail) /\
    ((forall p b o, toy_UnmarshalImportTx (Import p b o) = Some (p, b, o)) ->
     toy_UnmarshalImportTx (Import proofB burn170 [10; 20])
       = Some (proof', burnTx, payouts)).
Proof.
  assert (H : CompleteImportTransaction toy_hash one_authority GetMerkleRoot
                CBlock_GetMerkleBranch toy_tx Z toy_GetHash toy_UnmarshalImportTx
                toy_UnmarshalBurnTx Import hub import170
              = Return (Import proofB burn170 [10; 20]))
    by (vm_compute; reflexivity).
  split; [exact H|].
  exact (CompleteImportTransaction_completes toy_hash one_authority GetMerkleRoot
           CBlock_GetMerkleBranch toy_tx Z toy_GetHash toy_UnmarshalImportTx
           toy_UnmarshalBurnTx Import hub import170
           (Import proofB burn170 [10; 20]) H).
Defined.
